(** * snowflake-exporter: the collection cycle of [main.py]

    A shallow embedding of the exporter's single source file: the startup
    configuration checks, the nine Prometheus gauges, one collection cycle
    ([collect_metrics]) and the scheduling loop ([serve]), followed by the
    properties the specification states about them.

    Python objects are modelled by what the code observes of them:
    - the process environment is a finite map from names to strings, and
      the builtin [int] that parses the port is a parameter of the module
      body;
    - a gauge is the finite map from label tuples to values that
      [prometheus_client] keeps in [Gauge._metrics];
    - the warehouse is an oracle ([world]) that fixes, for one cycle, which
      calls raise and which rows each query returns;
    - a computation of the cycle threads the registry, may raise, and emits
      the calls and log records it performs (a state, error and writer
      monad). *)

From Stdlib Require Import QArith Ascii.
From stdpp Require Import numbers strings list fin_maps gmap.

Local Open Scope string_scope.
Local Open Scope Z_scope.
Local Open Scope list_scope.

(** ** Python values the code looks at *)

(** [str(x)] for a value that is a [str] or [None] (lines 92-177: every
    label value goes through [str] inside [Gauge.labels]; line 81: an
    f-string formats its argument the same way). *)
Definition py_str (x : option string) : string :=
  match x with
  | Some s => s
  | None => "None"
  end.

(** Truthiness of a [str] or [None] (line 42: [if not v]). *)
Definition truthy (x : option string) : bool :=
  match x with
  | Some s => negb (String.eqb s EmptyString)
  | None => false
  end.

(** The exceptions that occur; all but [SystemExit] derive from
    [Exception]. *)
Inductive exn :=
| DatabaseError      (* raised by the connector: connect, cursor, execute,
                        fetchall, close *)
| TypeError          (* float(None) *)
| IndexError         (* row[i] past the end of the row *)
| ValueError         (* int of a malformed literal *)
| OSError            (* start_http_server *)
| SystemExit (code : Z).

Definition is_Exception (e : exn) : bool :=
  match e with
  | SystemExit _ => false
  | _ => true
  end.

(** ** Gauges and the registry (lines 12-21) *)

(** The nine metrics, named by their exposition names. *)
Inductive metric :=
| snowflake_warehouse_credits_used
| snowflake_warehouse_load_avg
| snowflake_query_duration_seconds_avg
| snowflake_table_storage_bytes_used
| snowflake_login_success_count
| snowflake_login_failure_count
| snowflake_access_events_count
| snowflake_session_count
| snowflake_failed_queries_count.

Global Instance metric_eq_dec : EqDecision metric.
Proof. solve_decision. Defined.

(** Label names of each gauge, as declared in its constructor call. *)
Definition labelnames (m : metric) : list string :=
  match m with
  | snowflake_warehouse_credits_used => ["warehouse"]
  | snowflake_warehouse_load_avg => ["warehouse"]
  | snowflake_query_duration_seconds_avg => ["warehouse"]
  | snowflake_table_storage_bytes_used => ["database"; "schema"; "table"]
  | snowflake_login_success_count => ["user"]
  | snowflake_login_failure_count => ["user"]
  | snowflake_access_events_count => ["user"; "table"]
  | snowflake_session_count => ["user"]
  | snowflake_failed_queries_count => ["warehouse"]
  end.

(** A gauge with labels: its children, keyed by the tuple of label values.
    Values are the floats the children hold; they are only stored and
    compared here, never computed with, and are represented by rationals. *)
Abbreviation gauge := (gmap (list string) Q).

(** The module-level gauge objects, under the names of the source. *)
Record Registry := {
  warehouse_credits : gauge;
  warehouse_load : gauge;
  query_duration : gauge;
  table_storage : gauge;
  login_success : gauge;
  login_failure : gauge;
  access_events : gauge;
  session_count : gauge;
  failed_queries : gauge
}.

Definition get (m : metric) (r : Registry) : gauge :=
  match m with
  | snowflake_warehouse_credits_used => warehouse_credits r
  | snowflake_warehouse_load_avg => warehouse_load r
  | snowflake_query_duration_seconds_avg => query_duration r
  | snowflake_table_storage_bytes_used => table_storage r
  | snowflake_login_success_count => login_success r
  | snowflake_login_failure_count => login_failure r
  | snowflake_access_events_count => access_events r
  | snowflake_session_count => session_count r
  | snowflake_failed_queries_count => failed_queries r
  end.

Definition put (m : metric) (g : gauge) (r : Registry) : Registry :=
  match m with
  | snowflake_warehouse_credits_used =>
      {| warehouse_credits := g; warehouse_load := warehouse_load r;
         query_duration := query_duration r; table_storage := table_storage r;
         login_success := login_success r; login_failure := login_failure r;
         access_events := access_events r; session_count := session_count r;
         failed_queries := failed_queries r |}
  | snowflake_warehouse_load_avg =>
      {| warehouse_credits := warehouse_credits r; warehouse_load := g;
         query_duration := query_duration r; table_storage := table_storage r;
         login_success := login_success r; login_failure := login_failure r;
         access_events := access_events r; session_count := session_count r;
         failed_queries := failed_queries r |}
  | snowflake_query_duration_seconds_avg =>
      {| warehouse_credits := warehouse_credits r; warehouse_load := warehouse_load r;
         query_duration := g; table_storage := table_storage r;
         login_success := login_success r; login_failure := login_failure r;
         access_events := access_events r; session_count := session_count r;
         failed_queries := failed_queries r |}
  | snowflake_table_storage_bytes_used =>
      {| warehouse_credits := warehouse_credits r; warehouse_load := warehouse_load r;
         query_duration := query_duration r; table_storage := g;
         login_success := login_success r; login_failure := login_failure r;
         access_events := access_events r; session_count := session_count r;
         failed_queries := failed_queries r |}
  | snowflake_login_success_count =>
      {| warehouse_credits := warehouse_credits r; warehouse_load := warehouse_load r;
         query_duration := query_duration r; table_storage := table_storage r;
         login_success := g; login_failure := login_failure r;
         access_events := access_events r; session_count := session_count r;
         failed_queries := failed_queries r |}
  | snowflake_login_failure_count =>
      {| warehouse_credits := warehouse_credits r; warehouse_load := warehouse_load r;
         query_duration := query_duration r; table_storage := table_storage r;
         login_success := login_success r; login_failure := g;
         access_events := access_events r; session_count := session_count r;
         failed_queries := failed_queries r |}
  | snowflake_access_events_count =>
      {| warehouse_credits := warehouse_credits r; warehouse_load := warehouse_load r;
         query_duration := query_duration r; table_storage := table_storage r;
         login_success := login_success r; login_failure := login_failure r;
         access_events := g; session_count := session_count r;
         failed_queries := failed_queries r |}
  | snowflake_session_count =>
      {| warehouse_credits := warehouse_credits r; warehouse_load := warehouse_load r;
         query_duration := query_duration r; table_storage := table_storage r;
         login_success := login_success r; login_failure := login_failure r;
         access_events := access_events r; session_count := g;
         failed_queries := failed_queries r |}
  | snowflake_failed_queries_count =>
      {| warehouse_credits := warehouse_credits r; warehouse_load := warehouse_load r;
         query_duration := query_duration r; table_storage := table_storage r;
         login_success := login_success r; login_failure := login_failure r;
         access_events := access_events r; session_count := session_count r;
         failed_queries := g |}
  end.

(** [Gauge.clear()]: drop every child. *)
Definition gauge_clear (g : gauge) : gauge := ∅.

(** [Gauge.labels(...)]: the child for a label tuple is created, holding
    0.0, when it does not exist yet; an existing child is returned as is. *)
Definition gauge_labels (key : list string) (g : gauge) : gauge :=
  match g !! key with
  | Some _ => g
  | None => <[key := 0%Q]> g
  end.

(** [child.set(v)] once [float(v)] has succeeded. *)
Definition gauge_set (key : list string) (v : Q) (g : gauge) : gauge :=
  <[key := v]> g.

(** ** Rows and the warehouse *)

(** A result row. The SELECT list of each query fixes the shape: the
    grouping columns first (text, or NULL, which the connector hands over
    as [None]), then one numeric column (a number, or NULL). [row_value]
    holds the number as [float] returns it. *)
Record row := {
  row_labels : list (option string);
  row_value : option Q
}.

(** The two queries on QUERY_HISTORY carry the predicate
    [AND warehouse_name IS NOT NULL] (lines 110 and 173); the other seven
    have no predicate on their grouping columns. *)
Definition where_not_null (m : metric) : bool :=
  match m with
  | snowflake_query_duration_seconds_avg => true
  | snowflake_failed_queries_count => true
  | _ => false
  end.

(** What running one catalog query does. *)
Inductive query_result :=
| Execute_raises
| Fetchall_raises
| Fetched (rows : list row).

(** One cycle's view of the outside: which connector calls succeed, and
    what each query's GROUP BY yields over the rows of its window,
    before the entry's [IS NOT NULL] predicate (if it has one) is
    taken into account. *)
Record world := {
  connect_ok : bool;
  cursor_ok : bool;
  use_database_ok : bool;
  use_schema_ok : bool;
  grouped : metric -> query_result;
  cs_close_ok : bool;
  conn_close_ok : bool
}.

Definition first_label_not_null (r : row) : bool :=
  match row_labels r with
  | Some _ :: _ => true
  | _ => false
  end.

(** The rows the cursor returns for a catalog query. *)
Definition result_of (w : world) (m : metric) : query_result :=
  match grouped w m with
  | Fetched rows =>
      Fetched (if where_not_null m then List.filter first_label_not_null rows
               else rows)
  | r => r
  end.

(** ** Effects: calls, log records, exceptions *)

Inductive statement :=
| Use_database (name : string)       (* f"USE DATABASE {SNOWFLAKE_DATABASE}" *)
| Use_schema (name : string)         (* f"USE SCHEMA {SNOWFLAKE_SCHEMA}" *)
| Select (m : metric).               (* the catalog query feeding gauge m *)

Inductive level := INFO | ERROR.

Inductive message :=
| Missing_required (names : list string)          (* line 44 *)
| Connection_failed (e : exn)                     (* line 59 *)
| Metrics_collected                               (* line 179 *)
| Failed_to_collect (e : exn)                     (* line 181 *)
| Exporter_running (port : Z).                    (* line 187 *)

(** What the process does to the outside, in order. *)
Inductive event :=
| Log (l : level) (msg : message)
| Call_connect
| Call_cursor
| Call_execute (s : statement)
| Call_fetchall (m : metric)
| Call_cs_close
| Call_conn_close
| Call_start_http_server (port : Z)
| Call_sleep (seconds : Z).

Global Instance exn_eq_dec : EqDecision exn.
Proof. solve_decision. Defined.
Global Instance statement_eq_dec : EqDecision statement.
Proof. solve_decision. Defined.
Global Instance level_eq_dec : EqDecision level.
Proof. solve_decision. Defined.
Global Instance message_eq_dec : EqDecision message.
Proof. solve_decision. Defined.
Global Instance event_eq_dec : EqDecision event.
Proof. solve_decision. Defined.

(** The result of running a piece of the program from a registry: it
    returned a value or an exception left it, the registry it leaves
    behind, and what it did on the way. *)
Record Run (A : Type) := mkRun {
  result : exn + A;
  registry : Registry;
  events : list event
}.
Arguments mkRun {A} _ _ _.
Arguments result {A} _.
Arguments registry {A} _.
Arguments events {A} _.

Definition M (A : Type) : Type := Registry -> Run A.

Definition ret {A} (a : A) : M A := fun r => mkRun (inr a) r [].

Definition raise {A} (e : exn) : M A := fun r => mkRun (inl e) r [].

Definition bind {A B} (c : M A) (k : A -> M B) : M B := fun r =>
  let x := c r in
  match result x with
  | inl e => mkRun (inl e) (registry x) (events x)
  | inr a =>
      let y := k a (registry x) in
      mkRun (result y) (registry y) (events x ++ events y)
  end.

Declare Scope prog_scope.
Delimit Scope prog_scope with prog.
Notation "x <- c ;; k" := (bind c (fun x => k))
  (at level 100, c at next level, right associativity) : prog_scope.
Notation "c ;; k" := (bind c (fun _ => k))
  (at level 100, right associativity) : prog_scope.
Local Open Scope prog_scope.

Definition emit (ev : event) : M unit := fun r => mkRun (inr tt) r [ev].

Definition update (f : Registry -> Registry) : M unit :=
  fun r => mkRun (inr tt) (f r) [].

(** [try: body except Exception as e: handler(e)] *)
Definition try_except {A} (body : M A) (handler : exn -> M A) : M A := fun r =>
  let x := body r in
  match result x with
  | inl e =>
      if is_Exception e then
        let y := handler e (registry x) in
        mkRun (result y) (registry y) (events x ++ events y)
      else x
  | inr _ => x
  end.

(** [try: body finally: final]: [final] runs on every path; an exception
    leaving [final] replaces the outcome of [body]. *)
Definition try_finally {A} (body : M A) (final : M unit) : M A := fun r =>
  let x := body r in
  let y := final (registry x) in
  mkRun (match result y with
         | inl e => inl e
         | inr _ => result x
         end)
        (registry y) (events x ++ events y).

(** [for x in xs: body(x)] *)
Fixpoint for_each {A} (xs : list A) (body : A -> M unit) : M unit :=
  match xs with
  | [] => ret tt
  | x :: xs' => body x ;; for_each xs' body
  end.

(** A call into a library: recorded, then it returns or raises as the
    outside decides. *)
Definition call_or (e : exn) (ev : event) (ok : bool) : M unit :=
  emit ev ;; if ok then ret tt else raise e.

(** A connector call. *)
Definition call (ev : event) (ok : bool) : M unit := call_or DatabaseError ev ok.

Definition log (l : level) (msg : message) : M unit := emit (Log l msg).

(** ** Configuration read at import time (lines 23-30) *)

Record config := {
  SNOWFLAKE_USER : option string;
  SNOWFLAKE_PASSWORD : option string;
  SNOWFLAKE_ACCOUNT : option string;
  SNOWFLAKE_WAREHOUSE : option string;
  SNOWFLAKE_DATABASE : option string;
  SNOWFLAKE_SCHEMA : option string;
  EXPORTER_PORT : Z
}.

(** ** One collection cycle (lines 47-184) *)

Section Cycle.

Variable cfg : config.
Variable w : world.

(** Lines 47-60. [true] stands for the connection object, [false] for
    [None]. *)
Definition connect_to_snowflake : M bool :=
  try_except
    (call Call_connect (connect_ok w) ;;
     ret true)
    (fun e =>
       log ERROR (Connection_failed e) ;;
       ret false).

(** [cs.execute(sql)] *)
Definition execute (s : statement) : M unit :=
  call (Call_execute s)
       match s with
       | Use_database _ => use_database_ok w
       | Use_schema _ => use_schema_ok w
       | Select m =>
           match result_of w m with
           | Execute_raises => false
           | _ => true
           end
       end.

(** [cs.fetchall()] after the query of gauge [m]. *)
Definition fetchall (m : metric) : M (list row) :=
  emit (Call_fetchall m) ;;
  match result_of w m with
  | Fetched rows => ret rows
  | _ => raise DatabaseError
  end.

(** [row[i]] for a grouping column. *)
Definition row_index (r : row) (i : nat) : M (option string) :=
  match row_labels r !! i with
  | Some c => ret c
  | None => raise IndexError
  end.

(** The keyword arguments [row[0], row[1], ...] of a [labels] call,
    evaluated left to right. *)
Fixpoint label_args (r : row) (idx : list nat) : M (list (option string)) :=
  match idx with
  | [] => ret []
  | i :: idx' =>
      c <- row_index r i ;;
      cs <- label_args r idx' ;;
      ret (c :: cs)
  end.

(** [float(v)] *)
Definition float (v : option Q) : M Q :=
  match v with
  | Some q => ret q
  | None => raise TypeError
  end.

(** The body of each of the nine [for row in cs.fetchall()] loops:
    [g.labels(l1=row[0], ...).set(row[n])]. *)
Definition set_sample (m : metric) (r : row) : M unit :=
  args <- label_args r (seq 0 (length (labelnames m))) ;;
  let key := map py_str args in
  update (fun reg => put m (gauge_labels key (get m reg)) reg) ;;
  v <- float (row_value r) ;;
  update (fun reg => put m (gauge_set key v (get m reg)) reg).

(** One catalog entry: execute, fetch, and the loop over the rows. *)
Definition collect (m : metric) : M unit :=
  execute (Select m) ;;
  rows <- fetchall m ;;
  for_each rows (set_sample m).

Definition clear (m : metric) : M unit :=
  update (fun reg => put m (gauge_clear (get m reg)) reg).

(** Lines 69-179: the body of the [try] statement. *)
Definition try_body : M unit :=
  clear snowflake_warehouse_credits_used ;;
  clear snowflake_warehouse_load_avg ;;
  clear snowflake_query_duration_seconds_avg ;;
  clear snowflake_table_storage_bytes_used ;;
  clear snowflake_login_success_count ;;
  clear snowflake_login_failure_count ;;
  clear snowflake_access_events_count ;;
  clear snowflake_session_count ;;
  clear snowflake_failed_queries_count ;;
  execute (Use_database (py_str (SNOWFLAKE_DATABASE cfg))) ;;
  execute (Use_schema (py_str (SNOWFLAKE_SCHEMA cfg))) ;;
  collect snowflake_warehouse_credits_used ;;
  collect snowflake_warehouse_load_avg ;;
  collect snowflake_query_duration_seconds_avg ;;
  collect snowflake_table_storage_bytes_used ;;
  collect snowflake_login_success_count ;;
  collect snowflake_login_failure_count ;;
  collect snowflake_access_events_count ;;
  collect snowflake_session_count ;;
  collect snowflake_failed_queries_count ;;
  log INFO Metrics_collected.

(** Lines 68-181: the [try] statement with its [except] clause. *)
Definition attempt : M unit :=
  try_except try_body (fun e => log ERROR (Failed_to_collect e)).

(** Lines 183-184: the [finally] clause. *)
Definition release : M unit :=
  call Call_cs_close (cs_close_ok w) ;;
  call Call_conn_close (conn_close_ok w).

(** Lines 62-184. *)
Definition collect_metrics : M unit :=
  conn <- connect_to_snowflake ;;
  if negb conn then ret tt
  else
    call Call_cursor (cursor_ok w) ;;
    try_finally attempt release.

End Cycle.

(** ** Startup: the module body (lines 23-45) *)

(** [os.environ] *)
Abbreviation environ := (gmap string string).

(** [os.getenv(name)] and [os.getenv(name, default)] *)
Definition getenv (env : environ) (name : string) : option string :=
  env !! name.

Definition getenv_default (env : environ) (name dflt : string) : string :=
  match env !! name with
  | Some s => s
  | None => dflt
  end.

Section Interpreter.

(** [int(s)] for a [str]: the integer it returns, or [None] when it raises
    [ValueError]. Which texts it accepts is settled by the interpreter (its
    whitespace and digit tables, its limit on the number of digits), not by
    this program; the module body is modelled for whatever [int] is. *)
Variable py_int : string -> option Z.

Definition int (s : string) : M Z :=
  match py_int s with
  | Some n => ret n
  | None => raise ValueError
  end.

(** Lines 24-30. *)
Definition read_config (env : environ) : M config :=
  let user := getenv env "SNOWFLAKE_USERNAME" in
  let password := getenv env "SNOWFLAKE_PASSWORD" in
  let account := getenv env "SNOWFLAKE_ACCOUNT" in
  let warehouse := getenv env "SNOWFLAKE_WAREHOUSE" in
  let database := getenv env "SNOWFLAKE_DATABASE" in
  let schema := getenv env "SNOWFLAKE_SCHEMA" in
  port <- int (getenv_default env "EXPORTER_PORT" "8000") ;;
  ret {| SNOWFLAKE_USER := user; SNOWFLAKE_PASSWORD := password;
         SNOWFLAKE_ACCOUNT := account; SNOWFLAKE_WAREHOUSE := warehouse;
         SNOWFLAKE_DATABASE := database; SNOWFLAKE_SCHEMA := schema;
         EXPORTER_PORT := port |}.

(** Lines 33-40: a dict literal, iterated in insertion order. *)
Definition required_env (cfg : config) : list (string * option string) :=
  [ ("SNOWFLAKE_USERNAME", SNOWFLAKE_USER cfg);
    ("SNOWFLAKE_PASSWORD", SNOWFLAKE_PASSWORD cfg);
    ("SNOWFLAKE_ACCOUNT", SNOWFLAKE_ACCOUNT cfg);
    ("SNOWFLAKE_WAREHOUSE", SNOWFLAKE_WAREHOUSE cfg);
    ("SNOWFLAKE_DATABASE", SNOWFLAKE_DATABASE cfg);
    ("SNOWFLAKE_SCHEMA", SNOWFLAKE_SCHEMA cfg) ].

(** Line 42. *)
Definition missing (cfg : config) : list string :=
  map fst (List.filter (fun kv => negb (truthy (snd kv))) (required_env cfg)).

(** Lines 43-45. *)
Definition validate (cfg : config) : M unit :=
  match missing cfg with
  | [] => ret tt
  | names =>
      log ERROR (Missing_required names) ;;
      raise (SystemExit 1)
  end.

(** The module body up to the function definitions. *)
Definition startup (env : environ) : M config :=
  cfg <- read_config env ;;
  validate cfg ;;
  ret cfg.

End Interpreter.

(** ** The scheduler (lines 186-194) *)

(** The outside over the life of the process: whether the HTTP server
    starts, and the world each cycle meets. *)
Record process_world := {
  http_server_ok : bool;
  cycle_world : nat -> world
}.

(** The loop never returns; a run of it is observed for a number of
    iterations, after which it is still going. *)
Inductive running := Still_running.

(** Lines 189-191: [while True: collect_metrics(); time.sleep(60)],
    observed for [n] iterations starting with cycle number [i]. *)
Fixpoint scheduler (cfg : config) (cycles : nat -> world) (i n : nat) : M running :=
  match n with
  | O => ret Still_running
  | S n' =>
      collect_metrics cfg (cycles i) ;;
      emit (Call_sleep 60) ;;
      scheduler cfg cycles (S i) n'
  end.

Definition serve (cfg : config) (pw : process_world) (n : nat) : M running :=
  log INFO (Exporter_running (EXPORTER_PORT cfg)) ;;
  call_or OSError (Call_start_http_server (EXPORTER_PORT cfg)) (http_server_ok pw) ;;
  scheduler cfg (cycle_world pw) 0 n.

(** Running the file as a script. *)
Definition main (py_int : string -> option Z) (env : environ)
    (pw : process_world) (n : nat) : M running :=
  cfg <- startup py_int env ;;
  serve cfg pw n.

(** The registry when the module body starts: nine gauges without
    children (lines 13-21). *)
Definition empty_registry : Registry :=
  {| warehouse_credits := ∅; warehouse_load := ∅; query_duration := ∅;
     table_storage := ∅; login_success := ∅; login_failure := ∅;
     access_events := ∅; session_count := ∅; failed_queries := ∅ |}.

(** The catalog in source order. *)
Definition catalog : list metric :=
  [ snowflake_warehouse_credits_used; snowflake_warehouse_load_avg;
    snowflake_query_duration_seconds_avg; snowflake_table_storage_bytes_used;
    snowflake_login_success_count; snowflake_login_failure_count;
    snowflake_access_events_count; snowflake_session_count;
    snowflake_failed_queries_count ].

(** ** Vocabulary of the properties *)

(** The label tuple a row is filed under in gauge [m]: its first columns,
    one per label name, each through [str]. *)
Definition key_of (m : metric) (r : row) : list string :=
  map py_str (take (length (labelnames m)) (row_labels r)).

(** A row the loop body handles without raising: it has a column for
    every label and its value is a number. *)
Definition row_ok (m : metric) (r : row) : bool :=
  (length (labelnames m) <=? length (row_labels r))%nat &&
  match row_value r with
  | Some _ => true
  | None => false
  end.

(** The gauge after the samples of [rows] are set in order. *)
Definition write (m : metric) (rows : list row) (g : gauge) : gauge :=
  foldl (fun g r =>
           match row_value r with
           | Some v => <[key_of m r := v]> g
           | None => g
           end) g rows.

(** What a list of rows says about a label tuple: the value of the last
    row filed under it, if there is one. *)
Fixpoint last_value (m : metric) (rows : list row) (key : list string) : option Q :=
  match rows with
  | [] => None
  | r :: rest =>
      match last_value m rest key with
      | Some v => Some v
      | None => if decide (key_of m r = key) then row_value r else None
      end
  end.

(** A catalog entry that goes through: the query returns rows and every
    row can be set. *)
Definition entry_ok (w : world) (m : metric) : bool :=
  match result_of w m with
  | Fetched rows => forallb (row_ok m) rows
  | _ => false
  end.

(** The rows of an entry ([[]] when its query raises). *)
Definition rows_of (w : world) (m : metric) : list row :=
  match result_of w m with
  | Fetched rows => rows
  | _ => []
  end.

(** A cycle is successful when it logs so (line 179). *)
Definition committed (x : Run unit) : Prop :=
  Log INFO Metrics_collected ∈ events x.

(** A cycle out of which no exception comes: the connection fails (and
    the cycle is skipped), or the cursor is created and both [close]
    calls return. *)
Definition returns (w : world) : bool :=
  negb (connect_ok w) || (cursor_ok w && cs_close_ok w && conn_close_ok w).

(** The registry at the start of cycle [i] of the scheduler. *)
Fixpoint registry_at (cfg : config) (cycles : nat -> world) (reg : Registry)
    (i : nat) : Registry :=
  match i with
  | O => reg
  | S i' =>
      registry (collect_metrics cfg (cycles i') (registry_at cfg cycles reg i'))
  end.

(** The events of cycles [i], [i+1], ..., [i+n-1], each followed by the
    sleep. *)
Definition cycle_events (cfg : config) (cycles : nat -> world) (reg : Registry)
    (i n : nat) : list event :=
  flat_map (fun j =>
              (events (collect_metrics cfg (cycles j) (registry_at cfg cycles reg j))
               ++ [Call_sleep 60])%list)
           (seq i n).

Definition required_names : list string :=
  [ "SNOWFLAKE_USERNAME"; "SNOWFLAKE_PASSWORD"; "SNOWFLAKE_ACCOUNT";
    "SNOWFLAKE_WAREHOUSE"; "SNOWFLAKE_DATABASE"; "SNOWFLAKE_SCHEMA" ].

(** Every required value is present and not empty. *)
Definition complete (env : environ) : bool :=
  forallb (fun name => truthy (getenv env name)) required_names.

(** The one record the startup validation can leave (line 44). *)
Definition validation_record (ev : event) : bool :=
  match ev with
  | Log ERROR (Missing_required _) => true
  | _ => false
  end.

(** The configuration lines 24-30 build from an environment, given the
    port that line 30 parsed. *)
Definition config_of (env : environ) (port : Z) : config :=
  {| SNOWFLAKE_USER := getenv env "SNOWFLAKE_USERNAME";
     SNOWFLAKE_PASSWORD := getenv env "SNOWFLAKE_PASSWORD";
     SNOWFLAKE_ACCOUNT := getenv env "SNOWFLAKE_ACCOUNT";
     SNOWFLAKE_WAREHOUSE := getenv env "SNOWFLAKE_WAREHOUSE";
     SNOWFLAKE_DATABASE := getenv env "SNOWFLAKE_DATABASE";
     SNOWFLAKE_SCHEMA := getenv env "SNOWFLAKE_SCHEMA";
     EXPORTER_PORT := port |}.

(** Events of the [finally] clause. *)
Definition is_close (ev : event) : bool :=
  match ev with
  | Call_cs_close | Call_conn_close => true
  | _ => false
  end.

(** Events a cycle can produce. *)
Definition cycle_event (ev : event) : bool :=
  match ev with
  | Log _ (Missing_required _) | Log _ (Exporter_running _) => false
  | Call_start_http_server _ | Call_sleep _ => false
  | _ => true
  end.

(** Calls a catalog entry makes on the cursor. *)
Definition query_call (ev : event) : bool :=
  match ev with
  | Call_execute _ | Call_fetchall _ => true
  | _ => false
  end.

(** The [try] body with its two runs of nine statements written as loops
    over the catalog. *)
Definition try_loops (cfg : config) (w : world) : M unit :=
  for_each catalog clear ;;
  execute w (Use_database (py_str (SNOWFLAKE_DATABASE cfg))) ;;
  execute w (Use_schema (py_str (SNOWFLAKE_SCHEMA cfg))) ;;
  for_each catalog (collect w) ;;
  log INFO Metrics_collected.

(** Every catalog entry goes through. *)
Definition all_ok (w : world) : bool := forallb (entry_ok w) catalog.

(** ** Sample inputs *)

(** An [int] to run the samples with: what CPython (3.11 and later, with
    its default limit of 4300 digits) computes for a text of ASCII
    characters. Leading and trailing whitespace (tab, line feed, vertical
    tab, form feed, carriage return, space) is dropped; what is left is an
    optional sign and decimal digits, single underscores allowed between
    digits. On a text with a character outside ASCII it answers [None],
    which [int] does not always do; the sample environments are ASCII. *)
Definition is_space (a : ascii) : bool :=
  let n := nat_of_ascii a in
  ((9 <=? n)%nat && (n <=? 13)%nat) || (n =? 32)%nat.

Definition digit_of (a : ascii) : option Z :=
  let n := Z.of_nat (nat_of_ascii a) in
  if (48 <=? n) && (n <=? 57) then Some (n - 48) else None.

Fixpoint lstrip (l : list ascii) : list ascii :=
  match l with
  | a :: l' => if is_space a then lstrip l' else l
  | [] => []
  end.

Definition strip (l : list ascii) : list ascii :=
  rev (lstrip (rev (lstrip l))).

Fixpoint digits (acc : Z) (after_digit : bool) (l : list ascii) : option Z :=
  match l with
  | [] => if after_digit then Some acc else None
  | a :: l' =>
      if Ascii.eqb a "_"%char then
        if after_digit then digits acc false l' else None
      else
        match digit_of a with
        | Some d => digits (10 * acc + d) true l'
        | None => None
        end
  end.

Definition count_digits (l : list ascii) : nat :=
  length (List.filter (fun a => match digit_of a with
                                | Some _ => true
                                | None => false
                                end) l).

Definition ascii_int (s : string) : option Z :=
  let l := strip (String.list_ascii_of_string s) in
  if (4300 <? count_digits l)%nat then None
  else
    match l with
    | a :: l' =>
        if Ascii.eqb a "-"%char then Z.opp <$> digits 0 false l'
        else if Ascii.eqb a "+"%char then digits 0 false l'
        else digits 0 false l
    | [] => None
    end.


Definition mkrow (labels : list (option string)) (v : option Q) : row :=
  {| row_labels := labels; row_value := v |}.

Definition sample_config : config :=
  {| SNOWFLAKE_USER := Some "exporter"; SNOWFLAKE_PASSWORD := Some "secret";
     SNOWFLAKE_ACCOUNT := Some "acme"; SNOWFLAKE_WAREHOUSE := Some "WH_A";
     SNOWFLAKE_DATABASE := Some "DB1"; SNOWFLAKE_SCHEMA := Some "PUBLIC";
     EXPORTER_PORT := 8000 |}.

(** A world in which every call succeeds and the queries return the
    given tables. *)
Definition healthy (tables : metric -> list row) : world :=
  {| connect_ok := true; cursor_ok := true;
     use_database_ok := true; use_schema_ok := true;
     grouped := fun m => Fetched (tables m);
     cs_close_ok := true; conn_close_ok := true |}.

(** The scenarios of the specification: WH_A with 12.5 credits, alice and
    bob logging in, one table of 1 MiB. *)
Definition tables_1 (m : metric) : list row :=
  match m with
  | snowflake_warehouse_credits_used => [mkrow [Some "WH_A"] (Some (25 # 2)%Q)]
  | snowflake_warehouse_load_avg => [mkrow [Some "WH_A"] (Some (2 # 1)%Q)]
  | snowflake_table_storage_bytes_used =>
      [mkrow [Some "DB1"; Some "PUBLIC"; Some "T1"] (Some (1048576 # 1)%Q)]
  | snowflake_login_success_count =>
      [mkrow [Some "alice"] (Some (3 # 1)%Q); mkrow [Some "bob"] (Some (1 # 1)%Q)]
  | _ => []
  end.

(** The next cycle: WH_A has dropped out of the metering history. *)
Definition tables_2 (m : metric) : list row :=
  match m with
  | snowflake_warehouse_credits_used => []
  | m' => tables_1 m'
  end.

(** A group whose warehouse name is NULL, in the metering history and in
    the query history. *)
Definition tables_null (m : metric) : list row :=
  match m with
  | snowflake_warehouse_credits_used => [mkrow [None] (Some (5 # 1)%Q)]
  | snowflake_query_duration_seconds_avg => [mkrow [None] (Some (7 # 1)%Q)]
  | _ => []
  end.

(** The load query raises in [execute]. *)
Definition load_query_down : world :=
  {| connect_ok := true; cursor_ok := true;
     use_database_ok := true; use_schema_ok := true;
     grouped := fun m =>
       match m with
       | snowflake_warehouse_load_avg => Execute_raises
       | m' => Fetched (tables_1 m')
       end;
     cs_close_ok := true; conn_close_ok := true |}.

(** The warehouse cannot be reached. *)
Definition unreachable : world :=
  {| connect_ok := false; cursor_ok := true;
     use_database_ok := true; use_schema_ok := true;
     grouped := fun m => Fetched (tables_1 m);
     cs_close_ok := true; conn_close_ok := true |}.

(** Everything works, but closing the cursor raises. *)
Definition close_raises : world :=
  {| connect_ok := true; cursor_ok := true;
     use_database_ok := true; use_schema_ok := true;
     grouped := fun m => Fetched (tables_1 m);
     cs_close_ok := false; conn_close_ok := true |}.

Definition sample_environ : environ :=
  list_to_map
    [ ("SNOWFLAKE_USERNAME", "exporter"); ("SNOWFLAKE_PASSWORD", "secret");
      ("SNOWFLAKE_ACCOUNT", "acme"); ("SNOWFLAKE_WAREHOUSE", "WH_A");
      ("SNOWFLAKE_DATABASE", "DB1"); ("SNOWFLAKE_SCHEMA", "PUBLIC") ].

Definition steady (w : world) : process_world :=
  {| http_server_ok := true; cycle_world := fun _ => w |}.

(** The registry a first, healthy cycle leaves behind. *)
Definition registry_1 : Registry :=
  registry (collect_metrics sample_config (healthy tables_1) empty_registry).

(** A committed cycle, then a skipped one, then failed ones. *)
Definition mixed_cycles (i : nat) : world :=
  match i with
  | O => healthy tables_1
  | S O => unreachable
  | _ => load_query_down
  end.

(** A healthy cycle, then one whose cursor does not close. *)
Definition second_close_raises (i : nat) : world :=
  match i with
  | S O => close_raises
  | _ => healthy tables_1
  end.

(** Environments: one without the password, one whose schema is set to
    the empty string, one whose port is not a number (and whose user name
    is missing as well), one with a port of its own. *)
Definition env_without_password : environ :=
  delete "SNOWFLAKE_PASSWORD" sample_environ.

Definition env_empty_schema : environ :=
  <["SNOWFLAKE_SCHEMA" := EmptyString]> sample_environ.

Definition env_bad_port : environ :=
  <["EXPORTER_PORT" := "80a"]> (delete "SNOWFLAKE_USERNAME" sample_environ).

Definition env_port_9105 : environ :=
  <["EXPORTER_PORT" := "9105"]> sample_environ.

(** The two calls a catalog entry makes when its query goes through. *)
Definition calls_of (m : metric) : list event :=
  [Call_execute (Select m); Call_fetchall m].

(** Calls on the cursor, and log records: all a [try] statement does. *)
Definition query_or_log (ev : event) : bool :=
  match ev with
  | Call_execute _ | Call_fetchall _ | Log _ _ => true
  | _ => false
  end.

(** What one skipped cycle and the sleep after it leave in the trace. *)
Definition skipped_round : list event :=
  [Call_connect; Log ERROR (Connection_failed DatabaseError); Call_sleep 60].

(** The schema cannot be selected. *)
Definition context_down : world :=
  {| connect_ok := true; cursor_ok := true;
     use_database_ok := true; use_schema_ok := false;
     grouped := fun m => Fetched (tables_1 m);
     cs_close_ok := true; conn_close_ok := true |}.

(** The load history has a warehouse whose average is NULL, between two
    that have one. *)
Definition tables_null_value (m : metric) : list row :=
  match m with
  | snowflake_warehouse_load_avg =>
      [mkrow [Some "WH_A"] (Some (2 # 1)%Q); mkrow [Some "WH_B"] None;
       mkrow [Some "WH_C"] (Some (4 # 1)%Q)]
  | m' => tables_1 m'
  end.

(** The port cannot be bound. *)
Definition http_down : process_world :=
  {| http_server_ok := false; cycle_world := fun _ => healthy tables_1 |}.

(** The warehouse stays unreachable. *)
Definition outage (i : nat) : world := unreachable.

(** The storage metrics list table T1 twice (a table that was dropped and
    created again keeps both rows), and the metering history has a group
    without a warehouse name beside a warehouse called None. *)
Definition tables_dup (m : metric) : list row :=
  match m with
  | snowflake_table_storage_bytes_used =>
      [mkrow [Some "DB1"; Some "PUBLIC"; Some "T1"] (Some (100 # 1)%Q);
       mkrow [Some "DB1"; Some "PUBLIC"; Some "T1"] (Some (200 # 1)%Q)]
  | snowflake_warehouse_credits_used =>
      [mkrow [None] (Some (5 # 1)%Q); mkrow [Some "None"] (Some (7 # 1)%Q)]
  | _ => []
  end.

(** * Properties *)

(** ** The registry as a nine-slot store *)

Lemma get_put_eq m g r : get m (put m g r) = g.
Proof. by destruct m. Qed.

Lemma get_put_ne m m' g r : m ≠ m' → get m' (put m g r) = get m' r.
Proof. by destruct m, m'. Qed.

Lemma put_put m g g' r : put m g' (put m g r) = put m g' r.
Proof. by destruct m. Qed.

Lemma put_get m r : put m (get m r) r = r.
Proof. by destruct m, r. Qed.


Lemma get_empty_registry m : get m empty_registry = ∅.
Proof. by destruct m. Qed.

(** ** Laws of sequencing *)

Lemma run_eta {A} (x : Run A) : mkRun (result x) (registry x) (events x) = x.
Proof. by destruct x. Qed.

Lemma bind_ret_l {A B} (a : A) (k : A → M B) r : bind (ret a) k r = k a r.
Proof. unfold bind, ret. simpl. apply run_eta. Qed.

Lemma bind_assoc {A B C} (c : M A) (k : A → M B) (h : B → M C) r :
  bind (bind c k) h r = bind c (fun a => bind (k a) h) r.
Proof.
  unfold bind. simpl. destruct (result (c r)) as [e|a]; simpl; [done|].
  destruct (result (k a (registry (c r)))) as [e|b]; simpl; [done|].
  by rewrite app_assoc.
Qed.

Lemma bind_ext {A B} (c : M A) (k k' : A → M B) r :
  (∀ a r', k a r' = k' a r') → bind c k r = bind c k' r.
Proof.
  intros H. unfold bind. destruct (result (c r)); [done|]. by rewrite H.
Qed.

(** A run of [c] that is known in full decides the run of [c ;; k]. *)
Lemma bind_run {A B} (c : M A) (k : A → M B) r a r' evs :
  c r = mkRun (inr a) r' evs →
  bind c k r =
  mkRun (result (k a r')) (registry (k a r')) (evs ++ events (k a r')).
Proof. intros H. unfold bind. by rewrite H. Qed.

Lemma bind_raise {A B} (c : M A) (k : A → M B) r e r' evs :
  c r = mkRun (inl e) r' evs → bind c k r = mkRun (inl e) r' evs.
Proof. intros H. unfold bind. by rewrite H. Qed.

(** A loop followed by [k] is the chain of its iterations ending in [k]:
    the form in which the source spells out its nine entries. *)
Lemma for_each_chain {A B} (xs : list A) (f : A → M unit) (k : M B) r :
  (for_each xs f ;; k) r = foldr (fun x acc => f x ;; acc) k xs r.
Proof.
  revert r. induction xs as [|x xs IH]; intros r; simpl.
  - apply bind_ret_l.
  - rewrite bind_assoc. apply bind_ext. intros _ r'. apply IH.
Qed.

Lemma chain_ext {A B} (xs : list A) (f : A → M unit) (k k' : M B) r :
  (∀ r', k r' = k' r') →
  foldr (fun x acc => f x ;; acc) k xs r = foldr (fun x acc => f x ;; acc) k' xs r.
Proof.
  intros H. revert r. induction xs as [|x xs IH]; intros r; simpl; [apply H|].
  apply bind_ext. intros _ r'. apply IH.
Qed.

Lemma try_body_loops cfg w r : try_body cfg w r = try_loops cfg w r.
Proof.
  symmetry. unfold try_loops. rewrite for_each_chain.
  erewrite chain_ext; [reflexivity|].
  intros r'. apply bind_ext. intros _ r1. apply bind_ext. intros _ r2.
  by rewrite for_each_chain.
Qed.

(** ** Runs of the primitive steps *)

Lemma call_run ev ok r :
  call ev ok r = mkRun (if ok then inr tt else inl DatabaseError) r [ev].
Proof. by destruct ok. Qed.

Lemma clear_all_run r : for_each catalog clear r = mkRun (inr tt) empty_registry [].
Proof. reflexivity. Qed.

Lemma gauge_set_labels (key : list string) (v : Q) (g : gauge) :
  gauge_set key v (gauge_labels key g) = <[key := v]> g.
Proof.
  unfold gauge_set, gauge_labels. destruct (g !! key); [done|].
  apply insert_insert_eq.
Qed.

Lemma label_args_ok (r : row) s n reg :
  (s + n ≤ length (row_labels r))%nat →
  label_args r (seq s n) reg = mkRun (inr (take n (drop s (row_labels r)))) reg [].
Proof.
  revert s. induction n as [|n IH]; intros s Hlen; simpl.
  - by rewrite take_0.
  - destruct (lookup_lt_is_Some_2 (row_labels r) s) as [c Hc]; [lia|].
    unfold row_index. rewrite Hc.
    rewrite bind_ret_l.
    rewrite (bind_run _ _ _ _ _ _ (IH (S s) ltac:(lia))). simpl.
    rewrite (drop_S _ _ _ Hc). done.
Qed.

Lemma label_args_short (r : row) s n reg :
  (s ≤ length (row_labels r) < s + n)%nat →
  label_args r (seq s n) reg = mkRun (inl IndexError) reg [].
Proof.
  revert s. induction n as [|n IH]; intros s Hlen; simpl; [lia|].
  unfold row_index. destruct (row_labels r !! s) as [c|] eqn:Hc.
  - apply lookup_lt_Some in Hc. rewrite bind_ret_l.
    by rewrite (bind_raise _ _ _ _ _ _ (IH (S s) ltac:(lia))).
  - reflexivity.
Qed.

Lemma set_sample_ok m r v reg :
  row_ok m r = true → row_value r = Some v →
  set_sample m r reg = mkRun (inr tt) (put m (<[key_of m r := v]> (get m reg)) reg) [].
Proof.
  unfold row_ok. intros [Hlen _]%andb_true_iff Hv.
  apply Nat.leb_le in Hlen.
  unfold set_sample.
  rewrite (bind_run _ _ _ _ _ _ (label_args_ok r 0 _ reg Hlen)).
  rewrite drop_0, Hv. unfold bind, update, float. simpl.
  rewrite get_put_eq, put_put, gauge_set_labels. done.
Qed.

Lemma set_sample_fail m r reg :
  row_ok m r = false →
  ∃ e g, is_Exception e = true ∧ set_sample m r reg = mkRun (inl e) (put m g reg) [].
Proof.
  unfold row_ok. intros H.
  destruct (length (labelnames m) <=? length (row_labels r))%nat eqn:Hlen.
  - apply Nat.leb_le in Hlen. simpl in H.
    destruct (row_value r) as [v|] eqn:Hv; [done|].
    exists TypeError, (gauge_labels (key_of m r) (get m reg)). split; [done|].
    unfold set_sample.
    rewrite (bind_run _ _ _ _ _ _ (label_args_ok r 0 _ reg Hlen)).
    rewrite drop_0, Hv. reflexivity.
  - apply Nat.leb_gt in Hlen.
    exists IndexError, (get m reg). split; [done|].
    unfold set_sample.
    rewrite (bind_raise _ _ _ _ _ _
               (label_args_short r 0 (length (labelnames m)) reg ltac:(lia))).
    by rewrite put_get.
Qed.

Lemma rows_run_ok m rows reg :
  forallb (row_ok m) rows = true →
  for_each rows (set_sample m) reg =
  mkRun (inr tt) (put m (write m rows (get m reg)) reg) [].
Proof.
  revert reg. induction rows as [|r rows IH]; intros reg H; simpl.
  - unfold ret. by rewrite put_get.
  - simpl in H. apply andb_true_iff in H as [Hr Hrows].
    assert (∃ v, row_value r = Some v) as [v Hv].
    { unfold row_ok in Hr. destruct (row_value r); [eauto|].
      by rewrite andb_false_r in Hr. }
    rewrite (bind_run _ _ _ _ _ _ (set_sample_ok m r v reg Hr Hv)).
    rewrite (IH _ Hrows). simpl.
    unfold write at 2. simpl. rewrite Hv.
    by rewrite get_put_eq, put_put.
Qed.

Lemma rows_run_fail m rows reg :
  forallb (row_ok m) rows = false →
  ∃ e g, is_Exception e = true ∧
         for_each rows (set_sample m) reg = mkRun (inl e) (put m g reg) [].
Proof.
  revert reg. induction rows as [|r rows IH]; intros reg H; simpl in H; [done|].
  destruct (row_ok m r) eqn:Hr; simpl in H.
  - assert (∃ v, row_value r = Some v) as [v Hv].
    { unfold row_ok in Hr. destruct (row_value r); [eauto|].
      by rewrite andb_false_r in Hr. }
    destruct (IH (put m (<[key_of m r := v]> (get m reg)) reg) H)
      as (e & g & He & Hrun).
    exists e, g. split; [done|]. simpl.
    rewrite (bind_run _ _ _ _ _ _ (set_sample_ok m r v reg Hr Hv)).
    rewrite Hrun. simpl. by rewrite put_put.
  - destruct (set_sample_fail m r reg Hr) as (e & g & He & Hrun).
    exists e, g. split; [done|]. simpl.
    by rewrite (bind_raise _ _ _ _ _ _ Hrun).
Qed.

(** ** Runs of one catalog entry *)

Lemma execute_select_run w m reg :
  execute w (Select m) reg =
  mkRun (match result_of w m with
         | Execute_raises => inl DatabaseError
         | _ => inr tt
         end) reg [Call_execute (Select m)].
Proof. unfold execute. rewrite call_run. by destruct (result_of w m). Qed.

Lemma fetchall_run w m reg :
  fetchall w m reg =
  mkRun (match result_of w m with
         | Fetched rows => inr rows
         | _ => inl DatabaseError
         end) reg [Call_fetchall m].
Proof. unfold fetchall. by destruct (result_of w m). Qed.

Lemma collect_ok w m reg :
  entry_ok w m = true →
  collect w m reg =
  mkRun (inr tt) (put m (write m (rows_of w m) (get m reg)) reg)
        [Call_execute (Select m); Call_fetchall m].
Proof.
  unfold entry_ok, rows_of, collect. intros H.
  unfold bind. rewrite execute_select_run, fetchall_run. simpl.
  destruct (result_of w m) as [| |rows] eqn:Hres; try done. simpl.
  by rewrite (rows_run_ok m rows reg H).
Qed.

Lemma collect_fail w m reg :
  entry_ok w m = false →
  ∃ e g evs,
    is_Exception e = true ∧
    collect w m reg = mkRun (inl e) (put m g reg) evs ∧
    Forall (fun ev => query_call ev = true) evs ∧
    (forallb (row_ok m) (rows_of w m) = true → g = get m reg).
Proof.
  unfold entry_ok, rows_of, collect. intros H.
  unfold bind. rewrite execute_select_run, fetchall_run. simpl.
  destruct (result_of w m) as [| |rows] eqn:Hres; simpl.
  - exists DatabaseError, (get m reg), [Call_execute (Select m)].
    rewrite put_get. repeat split; by repeat constructor.
  - exists DatabaseError, (get m reg), [Call_execute (Select m); Call_fetchall m].
    rewrite put_get. repeat split; by repeat constructor.
  - destruct (rows_run_fail m rows reg H) as (e & g & He & Hrun).
    exists e, g, [Call_execute (Select m); Call_fetchall m].
    rewrite Hrun. simpl.
    repeat split; [done|by repeat constructor|congruence].
Qed.

(** ** Runs of a sequence of catalog entries *)

Lemma catalog_nodup : NoDup catalog.
Proof. compute_done. Qed.

Lemma catalog_all m : m ∈ catalog.
Proof. destruct m; compute_done. Qed.

Lemma first_failure {A} (P : A → bool) (l : list A) :
  forallb P l = false →
  ∃ pre k post, l = pre ++ k :: post ∧ forallb P pre = true ∧ P k = false.
Proof.
  induction l as [|a l IH]; simpl; [done|].
  destruct (P a) eqn:Ha; simpl.
  - intros (pre & k & post & -> & Hpre & Hk)%IH.
    exists (a :: pre), k, post. simpl. by rewrite Ha, Hpre.
  - intros _. by exists [], a, l.
Qed.

Lemma entries_ok w l reg :
  NoDup l → forallb (entry_ok w) l = true →
  ∃ R E,
    for_each l (collect w) reg = mkRun (inr tt) R E ∧
    (∀ m, m ∈ l → get m R = write m (rows_of w m) (get m reg)) ∧
    (∀ m, m ∉ l → get m R = get m reg) ∧
    Forall (fun ev => query_call ev = true) E.
Proof.
  revert reg. induction l as [|k l IH]; intros reg Hnd Hok; simpl.
  - exists reg, [].
    split_and!; [done | by intros m ?%elem_of_nil | done | constructor].
  - simpl in Hok. apply andb_true_iff in Hok as [Hk Hl].
    apply NoDup_cons in Hnd as [Hkl Hnd].
    destruct (IH (put k (write k (rows_of w k) (get k reg)) reg) Hnd Hl)
      as (R & E & Hrun & Hin & Hout & HE).
    exists R, ([Call_execute (Select k); Call_fetchall k] ++ E).
    rewrite (bind_run _ _ _ _ _ _ (collect_ok w k reg Hk)), Hrun. simpl.
    split_and!.
    + done.
    + intros m [->|Hm]%elem_of_cons.
      * by rewrite (Hout _ Hkl), get_put_eq.
      * rewrite (Hin _ Hm), get_put_ne; [done|]. by intros ->.
    + intros m [Hne Hm]%not_elem_of_cons.
      by rewrite (Hout _ Hm), get_put_ne.
    + by repeat constructor.
Qed.

Lemma entries_fail w pre k post reg :
  NoDup (pre ++ k :: post) →
  forallb (entry_ok w) pre = true → entry_ok w k = false →
  ∃ e R E,
    is_Exception e = true ∧
    for_each (pre ++ k :: post) (collect w) reg = mkRun (inl e) R E ∧
    (∀ m, m ∈ pre → get m R = write m (rows_of w m) (get m reg)) ∧
    (∀ m, m ∉ pre → m ≠ k → get m R = get m reg) ∧
    (forallb (row_ok k) (rows_of w k) = true → get k R = get k reg) ∧
    Forall (fun ev => query_call ev = true) E.
Proof.
  revert reg. induction pre as [|a pre IH]; intros reg Hnd Hpre Hk; simpl.
  - destruct (collect_fail w k reg Hk) as (e & g & evs & He & Hrun & Hevs & Hg).
    exists e, (put k g reg), evs.
    rewrite (bind_raise _ _ _ _ _ _ Hrun).
    split_and!; try done.
    + by intros m ?%elem_of_nil.
    + intros m _ Hne. by rewrite get_put_ne.
    + intros H. by rewrite get_put_eq, (Hg H).
  - simpl in Hpre. apply andb_true_iff in Hpre as [Ha Hpre].
    simpl in Hnd. apply NoDup_cons in Hnd as [Hnotin Hnd].
    apply not_elem_of_app in Hnotin as [Hapre Hakp].
    apply not_elem_of_cons in Hakp as [Hak _].
    destruct (IH (put a (write a (rows_of w a) (get a reg)) reg) Hnd Hpre Hk)
      as (e & R & E & He & Hrun & Hin & Hout & Hkeep & HE).
    exists e, R, ([Call_execute (Select a); Call_fetchall a] ++ E).
    rewrite (bind_run _ _ _ _ _ _ (collect_ok w a reg Ha)), Hrun. simpl.
    split_and!; try done.
    + intros m [->|Hm]%elem_of_cons.
      * by rewrite (Hout _ Hapre Hak), get_put_eq.
      * rewrite (Hin _ Hm), get_put_ne; [done|]. by intros ->.
    + intros m [Hne Hm]%not_elem_of_cons Hmk.
      by rewrite (Hout _ Hm Hmk), get_put_ne.
    + intros H. rewrite (Hkeep H), get_put_ne; [done|]. done.
    + by repeat constructor.
Qed.

(** ** Runs of the [try] statement *)

(** Reduce the projections of a run that is known, and nothing else. *)
Ltac observe := cbn [result registry events].

Lemma execute_use_database_run w name reg :
  execute w (Use_database name) reg =
  mkRun (if use_database_ok w then inr tt else inl DatabaseError) reg
        [Call_execute (Use_database name)].
Proof. apply call_run. Qed.

Lemma execute_use_schema_run w name reg :
  execute w (Use_schema name) reg =
  mkRun (if use_schema_ok w then inr tt else inl DatabaseError) reg
        [Call_execute (Use_schema name)].
Proof. apply call_run. Qed.

Lemma try_except_ok {A} (body : M A) h r a R E :
  body r = mkRun (inr a) R E → try_except body h r = mkRun (inr a) R E.
Proof. intros H. unfold try_except. by rewrite H. Qed.

Lemma try_except_caught {A} (body : M A) h r e R E :
  body r = mkRun (inl e) R E → is_Exception e = true →
  try_except body h r =
  mkRun (result (h e R)) (registry (h e R)) (E ++ events (h e R)).
Proof. intros H He. unfold try_except. by rewrite H; simpl; rewrite He. Qed.

(** The context statements and every entry go through: the body ends
    with the success record, every gauge holding what its rows wrote into
    the cleared gauge. *)
Lemma try_body_committed cfg w reg :
  use_database_ok w = true → use_schema_ok w = true → all_ok w = true →
  ∃ R E,
    try_body cfg w reg = mkRun (inr tt) R (E ++ [Log INFO Metrics_collected]) ∧
    (∀ m, get m R = write m (rows_of w m) ∅) ∧
    Forall (fun ev => query_call ev = true) E.
Proof.
  intros Hdb Hsc Hall.
  destruct (entries_ok w catalog empty_registry catalog_nodup Hall)
    as (R & E & Hrun & Hin & _ & HE).
  exists R, ([Call_execute (Use_database (py_str (SNOWFLAKE_DATABASE cfg)));
              Call_execute (Use_schema (py_str (SNOWFLAKE_SCHEMA cfg)))] ++ E).
  split_and!.
  - rewrite try_body_loops. unfold try_loops.
    rewrite (bind_run _ _ _ _ _ _ (clear_all_run reg)).
    unfold bind. rewrite execute_use_database_run, Hdb. observe.
    rewrite execute_use_schema_run, Hsc. observe.
    rewrite Hrun. simpl. done.
  - intros m. rewrite (Hin m (catalog_all m)). by rewrite get_empty_registry.
  - by repeat constructor.
Qed.

(** A context statement raises: only the clearing has happened. *)
Lemma try_body_context_fail cfg w reg :
  use_database_ok w && use_schema_ok w = false →
  ∃ E,
    try_body cfg w reg = mkRun (inl DatabaseError) empty_registry E ∧
    Forall (fun ev => query_call ev = true) E.
Proof.
  intros Hctx. rewrite try_body_loops. unfold try_loops.
  rewrite (bind_run _ _ _ _ _ _ (clear_all_run reg)).
  unfold bind. rewrite execute_use_database_run.
  destruct (use_database_ok w); observe.
  - rewrite execute_use_schema_run.
    destruct (use_schema_ok w); [done|]. observe.
    eexists. split; [done|]. by repeat constructor.
  - eexists. split; [done|]. by repeat constructor.
Qed.

(** The context is set and entry [k] is the first that does not go
    through. *)
Lemma try_body_fail_at cfg w reg pre k post :
  use_database_ok w = true → use_schema_ok w = true →
  catalog = pre ++ k :: post →
  forallb (entry_ok w) pre = true → entry_ok w k = false →
  ∃ e R E,
    is_Exception e = true ∧
    try_body cfg w reg = mkRun (inl e) R E ∧
    (∀ m, m ∈ pre → get m R = write m (rows_of w m) ∅) ∧
    (∀ m, m ∈ post → get m R = ∅) ∧
    (forallb (row_ok k) (rows_of w k) = true → get k R = ∅) ∧
    Forall (fun ev => query_call ev = true) E.
Proof.
  intros Hdb Hsc Hcat Hpre Hk.
  pose proof catalog_nodup as Hnd. rewrite Hcat in Hnd.
  destruct (entries_fail w pre k post empty_registry Hnd Hpre Hk)
    as (e & R & E & He & Hrun & Hin & Hout & Hkeep & HE).
  exists e, R,
    ([Call_execute (Use_database (py_str (SNOWFLAKE_DATABASE cfg)));
      Call_execute (Use_schema (py_str (SNOWFLAKE_SCHEMA cfg)))] ++ E).
  split_and!; [done| | | | |by repeat constructor].
  - rewrite try_body_loops. unfold try_loops.
    rewrite (bind_run _ _ _ _ _ _ (clear_all_run reg)).
    unfold bind. rewrite execute_use_database_run, Hdb. observe.
    rewrite execute_use_schema_run, Hsc. observe.
    rewrite Hcat, Hrun. simpl. done.
  - intros m Hm. rewrite (Hin m Hm). by rewrite get_empty_registry.
  - intros m Hm. apply NoDup_app in Hnd as (_ & Hdisj & Hkpost).
    rewrite Hout, get_empty_registry; [done| |].
    + intros Hmpre. apply (Hdisj m Hmpre). by right.
    + intros ->. by apply NoDup_cons_1_1 in Hkpost.
  - intros H. by rewrite (Hkeep H), get_empty_registry.
Qed.

Lemma try_body_raises cfg w reg :
  use_database_ok w && use_schema_ok w && all_ok w = false →
  ∃ e R E,
    is_Exception e = true ∧
    try_body cfg w reg = mkRun (inl e) R E ∧
    Forall (fun ev => query_call ev = true) E.
Proof.
  intros H.
  destruct (use_database_ok w && use_schema_ok w) eqn:Hctx.
  - apply andb_true_iff in Hctx as [Hdb Hsc]. simpl in H.
    destruct (first_failure _ _ H) as (pre & k & post & Hcat & Hpre & Hk).
    destruct (try_body_fail_at cfg w reg pre k post Hdb Hsc Hcat Hpre Hk)
      as (e & R & E & He & Hrun & _ & _ & _ & HE).
    by exists e, R, E.
  - destruct (try_body_context_fail cfg w reg Hctx) as (E & Hrun & HE).
    by exists DatabaseError, empty_registry, E.
Qed.

(** The [try] statement never lets an exception out, touches no
    connection, and logs success exactly when everything went through. *)
Lemma attempt_run cfg w reg :
  ∃ R E,
    attempt cfg w reg = mkRun (inr tt) R E ∧
    Forall (fun ev => is_close ev = false) E ∧
    Forall (fun ev => cycle_event ev = true) E ∧
    (Log INFO Metrics_collected ∈ E ↔
     use_database_ok w && use_schema_ok w && all_ok w = true).
Proof.
  assert (Hq : ∀ E, Forall (fun ev => query_call ev = true) E →
                    Forall (fun ev => is_close ev = false) E ∧
                    Forall (fun ev => cycle_event ev = true) E ∧
                    Log INFO Metrics_collected ∉ E).
  { intros E HE. split_and!.
    - eapply Forall_impl; [exact HE|]. by intros [].
    - eapply Forall_impl; [exact HE|]. by intros [].
    - intros Hin. rewrite Forall_forall in HE. by apply HE in Hin. }
  unfold attempt.
  destruct (use_database_ok w && use_schema_ok w && all_ok w) eqn:Hok.
  - apply andb_true_iff in Hok as [[Hdb Hsc]%andb_true_iff Hall].
    destruct (try_body_committed cfg w reg Hdb Hsc Hall) as (R & E & Hrun & _ & HE).
    exists R, (E ++ [Log INFO Metrics_collected]).
    destruct (Hq E HE) as (H1 & H2 & _).
    split_and!.
    + by apply try_except_ok.
    + apply Forall_app. split; [done|]. by repeat constructor.
    + apply Forall_app. split; [done|]. by repeat constructor.
    + split; [done|]. intros _. apply elem_of_app. right. by left.
  - destruct (try_body_raises cfg w reg Hok) as (e & R & E & He & Hrun & HE).
    exists R, (E ++ [Log ERROR (Failed_to_collect e)]).
    destruct (Hq E HE) as (H1 & H2 & H3).
    split_and!.
    + by rewrite (try_except_caught _ _ _ _ _ _ Hrun He).
    + apply Forall_app. split; [done|]. by repeat constructor.
    + apply Forall_app. split; [done|]. by repeat constructor.
    + split; [|done]. intros [Hin|Hin]%elem_of_app; [done|].
      apply list_elem_of_singleton in Hin. done.
Qed.

(** ** Runs of a whole cycle *)

Lemma connect_run w reg :
  connect_to_snowflake w reg =
  if connect_ok w then mkRun (inr true) reg [Call_connect]
  else mkRun (inr false) reg [Call_connect; Log ERROR (Connection_failed DatabaseError)].
Proof. unfold connect_to_snowflake. by destruct (connect_ok w) eqn:H. Qed.

Lemma release_run w reg :
  release w reg =
  mkRun (if cs_close_ok w && conn_close_ok w then inr tt else inl DatabaseError)
        reg
        (Call_cs_close :: if cs_close_ok w then [Call_conn_close] else []).
Proof. unfold release. by destruct (cs_close_ok w), (conn_close_ok w). Qed.

Lemma collect_metrics_eq cfg w :
  collect_metrics cfg w =
  (conn <- connect_to_snowflake w ;;
   if negb conn then ret tt
   else call Call_cursor (cursor_ok w) ;;
        try_finally (attempt cfg w) (release w)).
Proof. reflexivity. Qed.

Lemma try_finally_run {A} (body : M A) final r res R E res' R' E' :
  body r = mkRun res R E → final R = mkRun res' R' E' →
  try_finally body final r =
  mkRun (match res' with inl e => inl e | inr _ => res end) R' (E ++ E').
Proof. intros Hb Hf. unfold try_finally. rewrite Hb. observe. by rewrite Hf. Qed.

Lemma cycle_skipped cfg w reg :
  connect_ok w = false →
  collect_metrics cfg w reg =
  mkRun (inr tt) reg [Call_connect; Log ERROR (Connection_failed DatabaseError)].
Proof.
  intros H. rewrite collect_metrics_eq.
  assert (Hconn : connect_to_snowflake w reg =
                  mkRun (inr false) reg
                        [Call_connect; Log ERROR (Connection_failed DatabaseError)])
    by (by rewrite connect_run, H).
  by rewrite (bind_run _ _ _ _ _ _ Hconn).
Qed.

Lemma cycle_without_cursor cfg w reg :
  connect_ok w = true → cursor_ok w = false →
  collect_metrics cfg w reg = mkRun (inl DatabaseError) reg [Call_connect; Call_cursor].
Proof.
  intros Hc Hcur. rewrite collect_metrics_eq.
  assert (Hconn : connect_to_snowflake w reg = mkRun (inr true) reg [Call_connect])
    by (by rewrite connect_run, Hc).
  rewrite (bind_run _ _ _ _ _ _ Hconn). cbn [negb].
  assert (Hcursor : call Call_cursor (cursor_ok w) reg =
                    mkRun (inl DatabaseError) reg [Call_cursor])
    by (by rewrite call_run, Hcur).
  by rewrite (bind_raise _ _ _ _ _ _ Hcursor).
Qed.

Lemma cycle_run cfg w reg R E :
  connect_ok w = true → cursor_ok w = true →
  attempt cfg w reg = mkRun (inr tt) R E →
  collect_metrics cfg w reg =
  mkRun (if cs_close_ok w && conn_close_ok w then inr tt else inl DatabaseError)
        R
        ([Call_connect; Call_cursor] ++ E ++
         Call_cs_close :: if cs_close_ok w then [Call_conn_close] else []).
Proof.
  intros Hc Hcur Hrun. rewrite collect_metrics_eq.
  assert (Hconn : connect_to_snowflake w reg = mkRun (inr true) reg [Call_connect])
    by (by rewrite connect_run, Hc).
  rewrite (bind_run _ _ _ _ _ _ Hconn). cbn [negb].
  assert (Hcursor : call Call_cursor (cursor_ok w) reg = mkRun (inr tt) reg [Call_cursor])
    by (by rewrite call_run, Hcur).
  rewrite (bind_run _ _ _ _ _ _ Hcursor).
  rewrite (try_finally_run _ _ _ _ _ _ _ _ _ Hrun (release_run w R)). observe.
  by destruct (cs_close_ok w && conn_close_ok w).
Qed.

Lemma committed_iff cfg w reg :
  committed (collect_metrics cfg w reg) ↔
  connect_ok w && cursor_ok w &&
  (use_database_ok w && use_schema_ok w && all_ok w) = true.
Proof.
  unfold committed.
  destruct (connect_ok w) eqn:Hc.
  - destruct (cursor_ok w) eqn:Hcur.
    + destruct (attempt_run cfg w reg) as (R & E & Hrun & _ & _ & Hlog).
      rewrite (cycle_run cfg w reg R E Hc Hcur Hrun). observe.
      rewrite <- Hlog. cbn [andb].
      rewrite !elem_of_app. split; [|tauto].
      intros [Hin|[Hin|Hin]]; [|done|].
      * apply elem_of_cons in Hin as [?|Hin]; [done|].
        by apply list_elem_of_singleton in Hin.
      * apply elem_of_cons in Hin as [?|Hin]; [done|].
        destruct (cs_close_ok w); [|by apply elem_of_nil in Hin].
        by apply list_elem_of_singleton in Hin.
    + rewrite (cycle_without_cursor cfg w reg Hc Hcur). observe. cbn [andb].
      split; [|done]. intros Hin.
      apply elem_of_cons in Hin as [?|Hin]; [done|].
      by apply list_elem_of_singleton in Hin.
  - rewrite (cycle_skipped cfg w reg Hc). observe. cbn [andb].
    split; [|done]. intros Hin.
    apply elem_of_cons in Hin as [?|Hin]; [done|].
    by apply list_elem_of_singleton in Hin.
Qed.

(** After a successful cycle every gauge is what its rows wrote into an
    empty gauge, whatever the registry held before. *)
Lemma committed_registry cfg w reg :
  committed (collect_metrics cfg w reg) →
  ∀ m, entry_ok w m = true ∧
       get m (registry (collect_metrics cfg w reg)) = write m (rows_of w m) ∅.
Proof.
  intros H%committed_iff m.
  apply andb_true_iff in H as [[Hc Hcur]%andb_true_iff H].
  apply andb_true_iff in H as [[Hdb Hsc]%andb_true_iff Hall].
  split.
  - unfold all_ok in Hall. rewrite forallb_forall in Hall.
    apply Hall, list_elem_of_In, catalog_all.
  - destruct (try_body_committed cfg w reg Hdb Hsc Hall) as (R & E & Hrun & HR & _).
    rewrite (cycle_run cfg w reg R _ Hc Hcur (try_except_ok _ _ _ _ _ _ Hrun)).
    apply HR.
Qed.

(** ** What the rows leave in a gauge *)

Lemma write_cons (m : metric) (r : row) (rows : list row) (g : gauge) :
  write m (r :: rows) g =
  write m rows (match row_value r with
                | Some v => <[key_of m r := v]> g
                | None => g
                end).
Proof. reflexivity. Qed.

Lemma write_lookup (m : metric) (rows : list row) (g : gauge) (key : list string) :
  write m rows g !! key =
  match last_value m rows key with
  | Some v => Some v
  | None => g !! key
  end.
Proof.
  revert g. induction rows as [|r rows IH]; intros g; [done|].
  rewrite write_cons, IH. simpl.
  destruct (last_value m rows key); [done|].
  destruct (row_value r) as [v|] eqn:Hv.
  - rewrite lookup_insert. by destruct (decide (key_of m r = key)).
  - by destruct (decide (key_of m r = key)).
Qed.

Lemma last_value_absent (m : metric) (rows : list row) (key : list string) :
  (∀ r, r ∈ rows → key_of m r ≠ key) → last_value m rows key = None.
Proof.
  induction rows as [|r rows IH]; intros H; [done|]. simpl.
  rewrite IH; [|intros r' Hr'; apply H; by right].
  destruct (decide (key_of m r = key)) as [Heq|]; [|done].
  exfalso. apply (H r); [by left|done].
Qed.

Lemma last_value_from_row (m : metric) (rows : list row) (key : list string) (v : Q) :
  last_value m rows key = Some v →
  ∃ r, r ∈ rows ∧ key_of m r = key ∧ row_value r = Some v.
Proof.
  induction rows as [|a rows IH]; simpl; [done|].
  destruct (last_value m rows key) as [v'|].
  - intros [= ->]. destruct (IH eq_refl) as (r & Hr & Hk & Hv).
    exists r. split_and!; [by right|done|done].
  - destruct (decide (key_of m a = key)) as [Hk|]; [|done].
    intros Hv. exists a. split_and!; [by left|done|done].
Qed.

Lemma last_value_distinct (m : metric) (rows : list row) (r : row) :
  NoDup (map (key_of m) rows) → r ∈ rows →
  last_value m rows (key_of m r) = row_value r.
Proof.
  induction rows as [|a rows IH]; simpl; [by intros _ ?%elem_of_nil|].
  intros [Ha Hnd]%NoDup_cons [->|Hr]%elem_of_cons.
  - rewrite last_value_absent; [by rewrite decide_True|].
    intros r' Hr' Heq. apply Ha. rewrite <- Heq.
    apply list_elem_of_In, in_map, list_elem_of_In, Hr'.
  - rewrite (IH Hnd Hr). destruct (row_value r) as [v|] eqn:Hv; [done|].
    rewrite decide_False; [done|].
    intros Heq. apply Ha. rewrite Heq.
    apply list_elem_of_In, in_map, list_elem_of_In, Hr.
Qed.

Lemma write_size (m : metric) (rows : list row) (g : gauge) :
  NoDup (map (key_of m) rows) → forallb (row_ok m) rows = true →
  (∀ r, r ∈ rows → g !! key_of m r = None) →
  size (write m rows g) = (size g + length rows)%nat.
Proof.
  revert g. induction rows as [|a rows IH]; intros g Hnd Hok Hfresh.
  - simpl. lia.
  - simpl in Hnd, Hok. apply NoDup_cons in Hnd as [Ha Hnd].
    apply andb_true_iff in Hok as [Haok Hok].
    rewrite write_cons.
    assert (∃ v, row_value a = Some v) as [v Hv].
    { unfold row_ok in Haok. destruct (row_value a); [eauto|].
      by rewrite andb_false_r in Haok. }
    rewrite Hv, IH; [|done|done|].
    + rewrite map_size_insert_None by (apply Hfresh; by left). simpl. lia.
    + intros r Hr. rewrite lookup_insert_ne; [apply Hfresh; by right|].
      intros Heq. apply Ha. rewrite Heq.
      apply list_elem_of_In, in_map, list_elem_of_In, Hr.
Qed.

Lemma cycle_result cfg w reg :
  result (collect_metrics cfg w reg) =
  if returns w then inr tt else inl DatabaseError.
Proof.
  unfold returns. destruct (connect_ok w) eqn:Hc; cbn [negb orb].
  - destruct (cursor_ok w) eqn:Hcur; cbn [andb].
    + destruct (attempt_run cfg w reg) as (R & E & Hrun & _).
      by rewrite (cycle_run cfg w reg R E Hc Hcur Hrun).
    + by rewrite (cycle_without_cursor cfg w reg Hc Hcur).
  - by rewrite (cycle_skipped cfg w reg Hc).
Qed.

Lemma cycle_events_only cfg w reg :
  Forall (fun ev => cycle_event ev = true) (events (collect_metrics cfg w reg)).
Proof.
  destruct (connect_ok w) eqn:Hc.
  - destruct (cursor_ok w) eqn:Hcur.
    + destruct (attempt_run cfg w reg) as (R & E & Hrun & _ & HE & _).
      rewrite (cycle_run cfg w reg R E Hc Hcur Hrun). observe.
      repeat (apply Forall_app; split); try done; [by repeat constructor|].
      destruct (cs_close_ok w); by repeat constructor.
    + rewrite (cycle_without_cursor cfg w reg Hc Hcur). by repeat constructor.
  - rewrite (cycle_skipped cfg w reg Hc). by repeat constructor.
Qed.


(** Evaluate a closed statement about a sample run. *)
Ltac evaluate :=
  first [ reflexivity
        | vm_compute; reflexivity
        | apply (bool_decide_unpack _); vm_compute; reflexivity
        | solve [vm_compute; repeat constructor] ].

(** * The claims *)

(** Claim C3. When the connection cannot be acquired the cycle returns
    having done nothing but the failed connect and its log record: the
    registry after the cycle is the registry before it. *)
Theorem skipped_cycle_leaves_registry cfg w reg :
  connect_ok w = false →
  registry (collect_metrics cfg w reg) = reg ∧
  result (collect_metrics cfg w reg) = inr tt ∧
  events (collect_metrics cfg w reg) =
    [Call_connect; Log ERROR (Connection_failed DatabaseError)].
Proof. intros H. by rewrite (cycle_skipped cfg w reg H). Qed.

Lemma skipped_cycle_leaves_registry_witness :
  connect_ok unreachable = false ∧
  registry (collect_metrics sample_config unreachable registry_1) = registry_1 ∧
  result (collect_metrics sample_config unreachable registry_1) = inr tt ∧
  events (collect_metrics sample_config unreachable registry_1) =
    [Call_connect; Log ERROR (Connection_failed DatabaseError)].
Proof.
  split; [reflexivity|].
  apply (skipped_cycle_leaves_registry sample_config unreachable registry_1).
  reflexivity.
Defined.

(** Claim C4, as the code has it. After a successful cycle, for every
    metric the query returned rows and the gauge maps each label tuple to
    what those rows say about it, the value of the last row filed under
    the tuple, and to nothing else: a tuple under which this cycle's rows
    file nothing is absent, whatever an earlier cycle had put there. When
    the rows have pairwise distinct label tuples the gauge is exactly the
    rows: a tuple has a value if and only if a row has that tuple and
    that value, and there are as many samples as rows. *)
Theorem committed_registry_reflects_rows cfg w reg m :
  committed (collect_metrics cfg w reg) →
  result_of w m = Fetched (rows_of w m) ∧
  (∀ key, get m (registry (collect_metrics cfg w reg)) !! key
          = last_value m (rows_of w m) key) ∧
  (∀ key, (∀ r, r ∈ rows_of w m → key_of m r ≠ key) →
          get m (registry (collect_metrics cfg w reg)) !! key = None) ∧
  (NoDup (map (key_of m) (rows_of w m)) →
   (∀ key v,
      get m (registry (collect_metrics cfg w reg)) !! key = Some v ↔
      ∃ r, r ∈ rows_of w m ∧ key_of m r = key ∧ row_value r = Some v) ∧
   size (get m (registry (collect_metrics cfg w reg))) = length (rows_of w m)).
Proof.
  intros Hcommit.
  destruct (committed_registry cfg w reg Hcommit m) as [Hok Hreg].
  assert (Hlookup : ∀ key, get m (registry (collect_metrics cfg w reg)) !! key
                           = last_value m (rows_of w m) key).
  { intros key. rewrite Hreg, write_lookup, lookup_empty.
    by destruct (last_value m (rows_of w m) key). }
  assert (Hrows : forallb (row_ok m) (rows_of w m) = true).
  { unfold entry_ok in Hok. unfold rows_of. by destruct (result_of w m). }
  split_and!.
  - unfold entry_ok in Hok. unfold rows_of. by destruct (result_of w m).
  - exact Hlookup.
  - intros key Habsent. by rewrite Hlookup, (last_value_absent m _ key Habsent).
  - intros Hnd. split.
    + intros key v. rewrite Hlookup. split.
      * apply last_value_from_row.
      * intros (r & Hr & <- & Hv). by rewrite (last_value_distinct m _ r Hnd Hr).
    + rewrite Hreg, (write_size m _ ∅ Hnd Hrows); [by rewrite map_size_empty|].
      intros r _. apply lookup_empty.
Qed.

Lemma committed_registry_reflects_rows_witness :
  committed (collect_metrics sample_config (healthy tables_2) registry_1) ∧
  NoDup (map (key_of snowflake_login_success_count)
             (rows_of (healthy tables_2) snowflake_login_success_count)) ∧
  result_of (healthy tables_2) snowflake_login_success_count
    = Fetched (rows_of (healthy tables_2) snowflake_login_success_count) ∧
  (∀ key, get snowflake_login_success_count
            (registry (collect_metrics sample_config (healthy tables_2) registry_1))
            !! key
          = last_value snowflake_login_success_count
              (rows_of (healthy tables_2) snowflake_login_success_count) key) ∧
  (∀ key, (∀ r, r ∈ rows_of (healthy tables_2) snowflake_login_success_count →
                key_of snowflake_login_success_count r ≠ key) →
          get snowflake_login_success_count
            (registry (collect_metrics sample_config (healthy tables_2) registry_1))
            !! key = None) ∧
  (∀ key v,
     get snowflake_login_success_count
       (registry (collect_metrics sample_config (healthy tables_2) registry_1))
       !! key = Some v ↔
     ∃ r, r ∈ rows_of (healthy tables_2) snowflake_login_success_count ∧
          key_of snowflake_login_success_count r = key ∧ row_value r = Some v) ∧
  size (get snowflake_login_success_count
          (registry (collect_metrics sample_config (healthy tables_2) registry_1)))
  = length (rows_of (healthy tables_2) snowflake_login_success_count).
Proof.
  assert (H : committed (collect_metrics sample_config (healthy tables_2) registry_1))
    by (unfold committed; evaluate).
  assert (Hnd : NoDup (map (key_of snowflake_login_success_count)
                           (rows_of (healthy tables_2)
                                    snowflake_login_success_count)))
    by evaluate.
  destruct (committed_registry_reflects_rows sample_config (healthy tables_2)
              registry_1 snowflake_login_success_count H)
    as (H1 & H2 & H3 & H4).
  split; [exact H|]. split; [exact Hnd|]. split; [exact H1|].
  split; [exact H2|]. split; [exact H3|]. exact (H4 Hnd).
Defined.

(** Claim C4, as stated, fails: the registry after a successful cycle is
    not always exactly the rows returned. Two storage rows for the same
    table leave one sample, with the value of the second; the group
    without a warehouse name and the warehouse called None leave one
    sample as well, and the value of the first row is nowhere. *)
Lemma duplicate_rows_leave_one_sample :
  committed (collect_metrics sample_config (healthy tables_dup) empty_registry) ∧
  result_of (healthy tables_dup) snowflake_table_storage_bytes_used
    = Fetched [mkrow [Some "DB1"; Some "PUBLIC"; Some "T1"] (Some (100 # 1)%Q);
               mkrow [Some "DB1"; Some "PUBLIC"; Some "T1"] (Some (200 # 1)%Q)] ∧
  table_storage
    (registry (collect_metrics sample_config (healthy tables_dup) empty_registry))
    = {[ ["DB1"; "PUBLIC"; "T1"] := (200 # 1)%Q ]} ∧
  result_of (healthy tables_dup) snowflake_warehouse_credits_used
    = Fetched [mkrow [None] (Some (5 # 1)%Q); mkrow [Some "None"] (Some (7 # 1)%Q)] ∧
  warehouse_credits
    (registry (collect_metrics sample_config (healthy tables_dup) empty_registry))
    = {[ ["None"] := (7 # 1)%Q ]}.
Proof. split_and!; [unfold committed; evaluate|evaluate..]. Qed.

(** The scenario of the specification: WH_A reports 12.5 credits in one
    cycle and no rows in the next; its sample is gone after the second. *)
Example wh_a_dropped :
  warehouse_credits registry_1 !! ["WH_A"] = Some (25 # 2)%Q ∧
  warehouse_credits
    (registry (collect_metrics sample_config (healthy tables_2) registry_1))
    !! ["WH_A"] = None.
Proof. split; evaluate. Qed.



(** Claim C1, as the code has it. When the query of catalog entry [k]
    raises in [execute] or [fetchall], the entries before it having gone
    through, the registry holds this cycle's rows for every entry before
    [k], and every gauge from [k] onward is empty: all nine gauges were
    cleared at the top of the [try] block, before the first query. *)
Theorem failed_cycle_registry cfg w reg pre k post :
  catalog = pre ++ k :: post →
  connect_ok w = true → cursor_ok w = true →
  use_database_ok w = true → use_schema_ok w = true →
  forallb (entry_ok w) pre = true →
  result_of w k = Execute_raises ∨ result_of w k = Fetchall_raises →
  (∀ m key, m ∈ pre →
     get m (registry (collect_metrics cfg w reg)) !! key
     = last_value m (rows_of w m) key) ∧
  (∀ m, m ∈ k :: post → get m (registry (collect_metrics cfg w reg)) = ∅).
Proof.
  intros Hcat Hc Hcur Hdb Hsc Hpre Hraise.
  assert (Hk : entry_ok w k = false).
  { unfold entry_ok. by destruct Hraise as [-> | ->]. }
  assert (Hrows : forallb (row_ok k) (rows_of w k) = true).
  { unfold rows_of. by destruct Hraise as [-> | ->]. }
  destruct (try_body_fail_at cfg w reg pre k post Hdb Hsc Hcat Hpre Hk)
    as (e & R & E & He & Hrun & Hin & Hpost & Hkeep & _).
  pose proof (try_except_caught _ (fun e => log ERROR (Failed_to_collect e))
                _ _ _ _ Hrun He) as Hattempt.
  rewrite (cycle_run cfg w reg R _ Hc Hcur Hattempt). observe.
  split.
  - intros m key Hm. rewrite (Hin m Hm), write_lookup, lookup_empty.
    by destruct (last_value m (rows_of w m) key).
  - intros m [->|Hm]%elem_of_cons; [by apply Hkeep | by apply Hpost].
Qed.

Lemma failed_cycle_registry_witness :
  catalog = [snowflake_warehouse_credits_used] ++
            snowflake_warehouse_load_avg :: drop 2 catalog ∧
  connect_ok load_query_down = true ∧ cursor_ok load_query_down = true ∧
  use_database_ok load_query_down = true ∧ use_schema_ok load_query_down = true ∧
  forallb (entry_ok load_query_down) [snowflake_warehouse_credits_used] = true ∧
  (result_of load_query_down snowflake_warehouse_load_avg = Execute_raises ∨
   result_of load_query_down snowflake_warehouse_load_avg = Fetchall_raises) ∧
  (∀ m key, m ∈ [snowflake_warehouse_credits_used] →
     get m (registry (collect_metrics sample_config load_query_down registry_1))
       !! key
     = last_value m (rows_of load_query_down m) key) ∧
  (∀ m, m ∈ snowflake_warehouse_load_avg :: drop 2 catalog →
     get m (registry (collect_metrics sample_config load_query_down registry_1))
     = ∅).
Proof.
  split_and!; [reflexivity|reflexivity|reflexivity|reflexivity|reflexivity
              |reflexivity|by left| |];
    apply (failed_cycle_registry sample_config load_query_down registry_1
             [snowflake_warehouse_credits_used] snowflake_warehouse_load_avg
             (drop 2 catalog));
    first [reflexivity | by left].
Defined.

(** Claim C1, as stated, fails: after a cycle in which the load query
    raises, the gauges from that entry onward do not hold the values of
    the previous cycle; they are empty. *)
Lemma failed_cycle_keeps_no_previous_values :
  result_of load_query_down snowflake_warehouse_load_avg = Execute_raises ∧
  get snowflake_warehouse_load_avg registry_1 !! ["WH_A"] = Some (2 # 1)%Q ∧
  get snowflake_warehouse_load_avg
      (registry (collect_metrics sample_config load_query_down registry_1))
      !! ["WH_A"] = None ∧
  get snowflake_login_success_count registry_1 !! ["alice"] = Some (3 # 1)%Q ∧
  get snowflake_login_success_count
      (registry (collect_metrics sample_config load_query_down registry_1))
      !! ["alice"] = None.
Proof. split_and!; evaluate. Qed.

(** The two queries on the query history never return a group without a
    warehouse name. *)
Lemma not_null_queries_filter w m rows :
  where_not_null m = true → result_of w m = Fetched rows →
  ∀ r, r ∈ rows → first_label_not_null r = true.
Proof.
  unfold result_of. intros Hm Hres r Hr. rewrite Hm in Hres.
  destruct (grouped w m) as [| |all]; try done.
  injection Hres as <-. by apply list_elem_of_In, filter_In in Hr as [_ ?].
Qed.

(** Claim C2 fails on the code. A group whose warehouse name is NULL in
    the metering history is exported, under the label value ["None"]; the
    same group in the query history is not, because only the two queries on
    the query history carry the [IS NOT NULL] predicate. *)
Theorem null_group_is_exported :
  result_of (healthy tables_null) snowflake_warehouse_credits_used
    = Fetched [mkrow [None] (Some (5 # 1)%Q)] ∧
  committed (collect_metrics sample_config (healthy tables_null) empty_registry) ∧
  warehouse_credits
    (registry (collect_metrics sample_config (healthy tables_null) empty_registry))
    !! ["None"] = Some (5 # 1)%Q ∧
  query_duration
    (registry (collect_metrics sample_config (healthy tables_null) empty_registry))
    = ∅.
Proof. split_and!; [evaluate| unfold committed; evaluate | evaluate | evaluate]. Qed.




(** ** The scheduler *)

Lemma scheduler_from cfg cycles reg i n :
  (∀ j, (i ≤ j < i + n)%nat → returns (cycles j) = true) →
  scheduler cfg cycles i n (registry_at cfg cycles reg i) =
  mkRun (inr Still_running) (registry_at cfg cycles reg (i + n))
        (cycle_events cfg cycles reg i n).
Proof.
  revert i. induction n as [|n IH]; intros i Hret.
  - by rewrite Nat.add_0_r.
  - simpl scheduler.
    assert (Hcycle : collect_metrics cfg (cycles i) (registry_at cfg cycles reg i) =
                     mkRun (inr tt) (registry_at cfg cycles reg (S i))
                       (events (collect_metrics cfg (cycles i)
                                  (registry_at cfg cycles reg i)))).
    { rewrite <- (run_eta (collect_metrics _ _ _)) at 1.
      rewrite cycle_result, (Hret i ltac:(lia)). done. }
    rewrite (bind_run _ _ _ _ _ _ Hcycle).
    assert (Hsleep : emit (Call_sleep 60) (registry_at cfg cycles reg (S i)) =
                     mkRun (inr tt) (registry_at cfg cycles reg (S i))
                           [Call_sleep 60]) by done.
    rewrite (bind_run _ _ _ _ _ _ Hsleep).
    rewrite (IH (S i)); [|intros j Hj; apply Hret; lia]. observe.
    unfold cycle_events. simpl seq. simpl flat_map.
    rewrite <- app_assoc. simpl. by rewrite Nat.add_succ_r.
Qed.

(** Claim C7, as the code has it. As long as no exception leaves a cycle,
    the loop is still running after any number of iterations, and what it
    has done is, cycle after cycle in order, the whole of that cycle
    (committed, failed or skipped) followed by one [sleep(60)]; the next
    cycle starts from the registry the previous one left. *)
Theorem scheduler_runs cfg cycles reg n :
  (∀ i, (i < n)%nat → returns (cycles i) = true) →
  scheduler cfg cycles 0 n reg =
  mkRun (inr Still_running) (registry_at cfg cycles reg n)
        (cycle_events cfg cycles reg 0 n).
Proof.
  intros H. apply (scheduler_from cfg cycles reg 0 n).
  intros j Hj. apply H. lia.
Qed.

Lemma scheduler_runs_witness :
  (∀ i, (i < 3)%nat → returns (mixed_cycles i) = true) ∧
  scheduler sample_config mixed_cycles 0 3 empty_registry =
  mkRun (inr Still_running) (registry_at sample_config mixed_cycles empty_registry 3)
        (cycle_events sample_config mixed_cycles empty_registry 0 3).
Proof.
  assert (H : ∀ i, (i < 3)%nat → returns (mixed_cycles i) = true).
  { intros [|[|[|i]]] Hi; [reflexivity|reflexivity|reflexivity|lia]. }
  split; [exact H|].
  exact (scheduler_runs sample_config mixed_cycles empty_registry 3 H).
Defined.

(** Claim C7, as stated, fails: the loop does not run forever whatever
    the cycles do. When closing the cursor raises in the second cycle, the
    loop ends there: one sleep has happened, and no third cycle starts. *)
Lemma scheduler_stops :
  result (scheduler sample_config second_close_raises 0 5 empty_registry)
    = inl DatabaseError ∧
  count_occ event_eq_dec
    (events (scheduler sample_config second_close_raises 0 5 empty_registry))
    (Call_sleep 60) = 1%nat ∧
  count_occ event_eq_dec
    (events (scheduler sample_config second_close_raises 0 5 empty_registry))
    Call_connect = 2%nat ∧
  last (events (scheduler sample_config second_close_raises 0 5 empty_registry))
    = Some Call_cs_close.
Proof. split_and!; evaluate. Qed.

(** ** Startup *)

Example ascii_int_default : ascii_int "8000" = Some 8000.
Proof. reflexivity. Qed.

Example ascii_int_accepts : ascii_int " +1_0 " = Some 10 ∧ ascii_int "-7" = Some (-7).
Proof. split; reflexivity. Qed.

Example ascii_int_rejects :
  ascii_int "80_" = None ∧ ascii_int EmptyString = None ∧ ascii_int "8 0" = None ∧
  ascii_int "8000.0" = None ∧
  ascii_int (String (ascii_of_nat 28) "12") = None.
Proof. repeat split; reflexivity. Qed.

Lemma read_config_run py_int env reg :
  read_config py_int env reg =
  match py_int (getenv_default env "EXPORTER_PORT" "8000") with
  | Some port => mkRun (inr (config_of env port)) reg []
  | None => mkRun (inl ValueError) reg []
  end.
Proof.
  unfold read_config, int, bind.
  by destruct (py_int (getenv_default env "EXPORTER_PORT" "8000")).
Qed.

Lemma validate_run cfg reg :
  validate cfg reg =
  match missing cfg with
  | [] => mkRun (inr tt) reg []
  | names => mkRun (inl (SystemExit 1)) reg [Log ERROR (Missing_required names)]
  end.
Proof. unfold validate. by destruct (missing cfg). Qed.

Lemma missing_config_of env port :
  missing (config_of env port) =
  List.filter (fun name => negb (truthy (getenv env name))) required_names.
Proof.
  unfold missing, required_env, required_names, config_of. simpl.
  repeat match goal with
         | |- context [truthy ?x] => destruct (truthy x); simpl
         end; reflexivity.
Qed.

Lemma missing_nil env port :
  missing (config_of env port) = [] ↔ complete env = true.
Proof.
  rewrite missing_config_of. unfold complete.
  induction required_names as [|name names IH]; simpl; [done|].
  destruct (truthy (getenv env name)); simpl; [done|].
  split; done.
Qed.


Lemma incomplete env name :
  name ∈ required_names → truthy (getenv env name) = false → complete env = false.
Proof.
  intros Hin Hfalse. apply not_true_is_false. intros Hc.
  unfold complete in Hc. rewrite forallb_forall in Hc.
  apply list_elem_of_In, Hc in Hin. congruence.
Qed.

Lemma startup_run py_int env reg :
  startup py_int env reg =
  match py_int (getenv_default env "EXPORTER_PORT" "8000") with
  | None => mkRun (inl ValueError) reg []
  | Some port =>
      match missing (config_of env port) with
      | [] => mkRun (inr (config_of env port)) reg []
      | names =>
          mkRun (inl (SystemExit 1)) reg [Log ERROR (Missing_required names)]
      end
  end.
Proof.
  unfold startup, bind. rewrite read_config_run.
  destruct (py_int (getenv_default env "EXPORTER_PORT" "8000")) as [port|];
    [|done].
  observe. rewrite validate_run. by destruct (missing (config_of env port)).
Qed.

(** An incomplete environment stops the process in the module body. *)
Lemma main_stops py_int env pw n reg :
  complete env = false →
  ∃ e evs,
    main py_int env pw n reg = mkRun (inl e) reg evs ∧
    (e = SystemExit 1 ∨ e = ValueError) ∧
    Forall (fun ev => validation_record ev = true) evs ∧
    (∀ port,
       py_int (getenv_default env "EXPORTER_PORT" "8000") = Some port →
       e = SystemExit 1 ∧
       evs = [Log ERROR (Missing_required (missing (config_of env port)))]).
Proof.
  intros Hinc. unfold main.
  destruct (py_int (getenv_default env "EXPORTER_PORT" "8000")) as [port|] eqn:Hp.
  - destruct (missing (config_of env port)) as [|name names] eqn:Hm.
    { apply missing_nil in Hm. congruence. }
    exists (SystemExit 1), [Log ERROR (Missing_required (name :: names))].
    split_and!; [|by left|by repeat constructor|].
    + apply bind_raise. by rewrite startup_run, Hp, Hm.
    + intros port' [= <-]. by rewrite Hm.
  - exists ValueError, []. split_and!; [|by right|constructor|done].
    apply bind_raise. by rewrite startup_run, Hp.
Qed.

(** Claim C6. With a required value absent the process stops in the
    module body with an error (the exit of line 45, or the parse error of
    line 30 if the port is malformed too), having done nothing but log the
    missing names: no server is started and no cycle runs. With every
    required value present and not empty the validation passes silently,
    and the module body ends with the configuration whenever the port
    parses. A cycle itself checks no configuration: whatever the
    configuration, it logs no missing value and never exits. *)
Theorem startup_validation py_int env pw n reg :
  ((∃ name, name ∈ required_names ∧ getenv env name = None) →
   ∃ e evs,
     main py_int env pw n reg = mkRun (inl e) reg evs ∧
     (e = SystemExit 1 ∨ e = ValueError) ∧
     Forall (fun ev => validation_record ev = true) evs) ∧
  (complete env = true →
   ∀ port,
     validate (config_of env port) reg = mkRun (inr tt) reg [] ∧
     (py_int (getenv_default env "EXPORTER_PORT" "8000") = Some port →
      startup py_int env reg = mkRun (inr (config_of env port)) reg [])) ∧
  (∀ cfg w,
     Forall (fun ev => cycle_event ev = true) (events (collect_metrics cfg w reg)) ∧
     ∀ code, result (collect_metrics cfg w reg) ≠ inl (SystemExit code)).
Proof.
  split_and!.
  - intros (name & Hin & Hnone).
    assert (Hinc : complete env = false).
    { apply (incomplete env name Hin). by rewrite Hnone. }
    destruct (main_stops py_int env pw n reg Hinc) as (e & evs & Hrun & He & Hevs & _).
    by exists e, evs.
  - intros Hc port.
    assert (Hm : missing (config_of env port) = []) by by apply missing_nil.
    split.
    + by rewrite validate_run, Hm.
    + intros Hp. by rewrite startup_run, Hp, Hm.
  - intros cfg w. split; [apply cycle_events_only|].
    intros code. rewrite cycle_result. by destruct (returns w).
Qed.

Lemma startup_validation_witness :
  (∃ name, name ∈ required_names ∧ getenv env_without_password name = None) ∧
  (∃ e evs,
     main ascii_int env_without_password (steady (healthy tables_1)) 3 empty_registry
       = mkRun (inl e) empty_registry evs ∧
     (e = SystemExit 1 ∨ e = ValueError) ∧
     Forall (fun ev => validation_record ev = true) evs) ∧
  complete sample_environ = true ∧
  (validate (config_of sample_environ 8000) empty_registry
     = mkRun (inr tt) empty_registry [] ∧
   (ascii_int (getenv_default sample_environ "EXPORTER_PORT" "8000") = Some 8000 →
    startup ascii_int sample_environ empty_registry
      = mkRun (inr (config_of sample_environ 8000)) empty_registry [])).
Proof.
  assert (H : ∃ name, name ∈ required_names ∧
                      getenv env_without_password name = None).
  { exists "SNOWFLAKE_PASSWORD". split; [evaluate|reflexivity]. }
  split; [exact H|]. split.
  - exact (proj1 (startup_validation ascii_int env_without_password
                    (steady (healthy tables_1)) 3 empty_registry) H).
  - split; [reflexivity|].
    exact (proj1 (proj2 (startup_validation ascii_int sample_environ
                           (steady (healthy tables_1)) 3 empty_registry))
                 eq_refl 8000).
Defined.



Example empty_schema_exit :
  main ascii_int env_empty_schema (steady (healthy tables_1)) 3 empty_registry =
  mkRun (inl (SystemExit 1)) empty_registry
        [Log ERROR (Missing_required ["SNOWFLAKE_SCHEMA"])].
Proof. evaluate. Qed.

(** Claim C10. Whatever texts [int] accepts: a port value that is set and
    on which [int] raises ends the process on line 30 with that
    [ValueError]; nothing has been logged, so the validation of the
    required variables has not run (even if some are missing), the server
    is not started and no cycle runs. A value on which [int] returns is the
    port. Only when the variable is unset is the text ["8000"] parsed
    instead, which makes the port 8000. *)
Theorem port_parsing py_int env :
  (∀ s pw n reg,
     getenv env "EXPORTER_PORT" = Some s → py_int s = None →
     main py_int env pw n reg = mkRun (inl ValueError) reg []) ∧
  (∀ s port reg,
     getenv env "EXPORTER_PORT" = Some s → py_int s = Some port →
     read_config py_int env reg = mkRun (inr (config_of env port)) reg [] ∧
     EXPORTER_PORT (config_of env port) = port) ∧
  (∀ reg,
     getenv env "EXPORTER_PORT" = None → py_int "8000" = Some 8000 →
     read_config py_int env reg = mkRun (inr (config_of env 8000)) reg [] ∧
     EXPORTER_PORT (config_of env 8000) = 8000).
Proof.
  split_and!.
  - intros s pw n reg Hs Hbad. unfold main. apply bind_raise.
    rewrite startup_run. unfold getenv_default. unfold getenv in Hs.
    by rewrite Hs, Hbad.
  - intros s port reg Hs Hp. split; [|done].
    rewrite read_config_run. unfold getenv_default. unfold getenv in Hs.
    by rewrite Hs, Hp.
  - intros reg Hnone Hdefault. split; [|done].
    rewrite read_config_run. unfold getenv_default. unfold getenv in Hnone.
    by rewrite Hnone, Hdefault.
Qed.

Lemma port_parsing_witness :
  getenv env_bad_port "EXPORTER_PORT" = Some "80a" ∧ ascii_int "80a" = None ∧
  main ascii_int env_bad_port (steady (healthy tables_1)) 3 empty_registry
    = mkRun (inl ValueError) empty_registry [] ∧
  getenv env_port_9105 "EXPORTER_PORT" = Some "9105" ∧ ascii_int "9105" = Some 9105 ∧
  (read_config ascii_int env_port_9105 empty_registry
     = mkRun (inr (config_of env_port_9105 9105)) empty_registry [] ∧
   EXPORTER_PORT (config_of env_port_9105 9105) = 9105) ∧
  getenv sample_environ "EXPORTER_PORT" = None ∧ ascii_int "8000" = Some 8000 ∧
  (read_config ascii_int sample_environ empty_registry
     = mkRun (inr (config_of sample_environ 8000)) empty_registry [] ∧
   EXPORTER_PORT (config_of sample_environ 8000) = 8000).
Proof.
  split; [reflexivity|]. split; [reflexivity|]. split.
  { exact (proj1 (port_parsing ascii_int env_bad_port) "80a"
                 (steady (healthy tables_1)) 3%nat empty_registry eq_refl eq_refl). }
  split; [reflexivity|]. split; [reflexivity|]. split.
  { exact (proj1 (proj2 (port_parsing ascii_int env_port_9105)) "9105" 9105
                 empty_registry eq_refl eq_refl). }
  split; [reflexivity|]. split; [reflexivity|].
  exact (proj2 (proj2 (port_parsing ascii_int sample_environ)) empty_registry
               eq_refl eq_refl).
Defined.

(** * Further properties of the code *)

(** ** More on runs of loops and entries *)

Lemma for_each_app {A} (xs ys : list A) (f : A → M unit) r :
  for_each (xs ++ ys) f r = (for_each xs f ;; for_each ys f) r.
Proof.
  revert r. induction xs as [|x xs IH]; intros r; simpl.
  - by rewrite bind_ret_l.
  - rewrite bind_assoc. apply bind_ext. intros _ r'. apply IH.
Qed.

Lemma rows_events m rows reg : events (for_each rows (set_sample m) reg) = [].
Proof.
  destruct (forallb (row_ok m) rows) eqn:H.
  - by rewrite (rows_run_ok m rows reg H).
  - destruct (rows_run_fail m rows reg H) as (e & g & _ & ->). done.
Qed.

(** Whatever happens to it, an entry calls nothing but its own [execute]
    and, after that, its own [fetchall]. *)
Lemma collect_events w m reg :
  events (collect w m reg) = [Call_execute (Select m)] ∨
  events (collect w m reg) = calls_of m.
Proof.
  unfold collect, bind. rewrite execute_select_run, fetchall_run. observe.
  destruct (result_of w m) as [| |rows]; observe; [by left|by right|].
  right. by rewrite rows_events.
Qed.

Lemma entries_ok_events w l reg :
  forallb (entry_ok w) l = true →
  result (for_each l (collect w) reg) = inr tt ∧
  events (for_each l (collect w) reg) = flat_map calls_of l.
Proof.
  revert reg. induction l as [|k l IH]; intros reg Hok; [done|].
  simpl in Hok. apply andb_true_iff in Hok as [Hk Hl].
  simpl for_each. rewrite (bind_run _ _ _ _ _ _ (collect_ok w k reg Hk)). observe.
  destruct (IH (put k (write k (rows_of w k) (get k reg)) reg) Hl) as [-> ->].
  done.
Qed.

(** The entries before the first one that does not go through run in
    full; that one runs, and nothing after it. *)
Lemma entries_stop w pre k post reg :
  forallb (entry_ok w) pre = true → entry_ok w k = false →
  ∃ e tail,
    is_Exception e = true ∧
    result (for_each (pre ++ k :: post) (collect w) reg) = inl e ∧
    events (for_each (pre ++ k :: post) (collect w) reg)
      = flat_map calls_of pre ++ tail ∧
    (tail = [Call_execute (Select k)] ∨ tail = calls_of k).
Proof.
  intros Hpre Hk. rewrite for_each_app.
  destruct (entries_ok_events w pre reg Hpre) as [Hres Hev].
  assert (Hrun : for_each pre (collect w) reg =
                 mkRun (inr tt) (registry (for_each pre (collect w) reg))
                       (flat_map calls_of pre)).
  { rewrite <- (run_eta (for_each pre (collect w) reg)) at 1.
    by rewrite Hres, Hev. }
  rewrite (bind_run _ _ _ _ _ _ Hrun). observe.
  set (R := registry (for_each pre (collect w) reg)).
  destruct (collect_fail w k R Hk) as (e & g & evs & He & Hc & _ & _).
  simpl for_each. rewrite (bind_raise _ _ _ _ _ _ Hc). observe.
  exists e, evs. split_and!; try done.
  pose proof (collect_events w k R) as Hevs. by rewrite Hc in Hevs.
Qed.

(** The [try] body once the context is set: the nine entries run from
    the cleared registry, followed by the success record. *)
Lemma try_body_entries cfg w reg :
  use_database_ok w = true → use_schema_ok w = true →
  try_body cfg w reg =
  mkRun (result ((for_each catalog (collect w) ;; log INFO Metrics_collected)
                   empty_registry))
        (registry ((for_each catalog (collect w) ;; log INFO Metrics_collected)
                     empty_registry))
        ([Call_execute (Use_database (py_str (SNOWFLAKE_DATABASE cfg)));
          Call_execute (Use_schema (py_str (SNOWFLAKE_SCHEMA cfg)))] ++
         events ((for_each catalog (collect w) ;; log INFO Metrics_collected)
                   empty_registry)).
Proof.
  intros Hdb Hsc. rewrite try_body_loops. unfold try_loops.
  rewrite (bind_run _ _ _ _ _ _ (clear_all_run reg)). observe.
  assert (H1 : execute w (Use_database (py_str (SNOWFLAKE_DATABASE cfg)))
                 empty_registry
               = mkRun (inr tt) empty_registry
                   [Call_execute (Use_database (py_str (SNOWFLAKE_DATABASE cfg)))])
    by (by rewrite execute_use_database_run, Hdb).
  assert (H2 : execute w (Use_schema (py_str (SNOWFLAKE_SCHEMA cfg)))
                 empty_registry
               = mkRun (inr tt) empty_registry
                   [Call_execute (Use_schema (py_str (SNOWFLAKE_SCHEMA cfg)))])
    by (by rewrite execute_use_schema_run, Hsc).
  rewrite (bind_run _ _ _ _ _ _ H1). observe.
  by rewrite (bind_run _ _ _ _ _ _ H2).
Qed.

Lemma entries_exception w l reg e :
  result (for_each l (collect w) reg) = inl e → is_Exception e = true.
Proof.
  revert reg. induction l as [|k l IH]; intros reg; [done|].
  simpl for_each. destruct (entry_ok w k) eqn:Hk.
  - rewrite (bind_run _ _ _ _ _ _ (collect_ok w k reg Hk)). observe. apply IH.
  - destruct (collect_fail w k reg Hk) as (e' & g & evs & He & Hc & _).
    rewrite (bind_raise _ _ _ _ _ _ Hc). observe. by intros [= <-].
Qed.

(** The record the [try] statement ends with. *)
Lemma attempt_of_entries cfg w reg :
  use_database_ok w = true → use_schema_ok w = true →
  attempt cfg w reg =
  mkRun (inr tt)
        (registry (for_each catalog (collect w) empty_registry))
        ([Call_execute (Use_database (py_str (SNOWFLAKE_DATABASE cfg)));
          Call_execute (Use_schema (py_str (SNOWFLAKE_SCHEMA cfg)))] ++
         events (for_each catalog (collect w) empty_registry) ++
         [match result (for_each catalog (collect w) empty_registry) with
          | inr _ => Log INFO Metrics_collected
          | inl e => Log ERROR (Failed_to_collect e)
          end]).
Proof.
  intros Hdb Hsc.
  pose proof (try_body_entries cfg w reg Hdb Hsc) as Hbody.
  pose proof (entries_exception w catalog empty_registry) as Hexc.
  unfold bind in Hbody.
  destruct (result (for_each catalog (collect w) empty_registry)) as [e|[]];
    cbn [result registry events] in Hbody.
  - unfold attempt.
    rewrite (try_except_caught _ _ _ _ _ _ Hbody (Hexc e eq_refl)).
    unfold log, emit. observe. by rewrite <- app_assoc.
  - unfold attempt. rewrite (try_except_ok _ _ _ _ _ _ Hbody).
    unfold log, emit. observe. done.
Qed.

(** A cycle that gets its cursor and sets its context, in terms of the
    run of the nine entries from the cleared registry. *)
Lemma cycle_of_entries cfg w reg :
  connect_ok w = true → cursor_ok w = true →
  use_database_ok w = true → use_schema_ok w = true →
  collect_metrics cfg w reg =
  mkRun (if cs_close_ok w && conn_close_ok w then inr tt else inl DatabaseError)
        (registry (for_each catalog (collect w) empty_registry))
        ([Call_connect; Call_cursor] ++
         ([Call_execute (Use_database (py_str (SNOWFLAKE_DATABASE cfg)));
           Call_execute (Use_schema (py_str (SNOWFLAKE_SCHEMA cfg)))] ++
          events (for_each catalog (collect w) empty_registry) ++
          [match result (for_each catalog (collect w) empty_registry) with
           | inr _ => Log INFO Metrics_collected
           | inl e => Log ERROR (Failed_to_collect e)
           end]) ++
         Call_cs_close :: if cs_close_ok w then [Call_conn_close] else []).
Proof.
  intros Hc Hcur Hdb Hsc.
  apply (cycle_run cfg w reg _ _ Hc Hcur (attempt_of_entries cfg w reg Hdb Hsc)).
Qed.

Lemma committed_conditions cfg w reg :
  committed (collect_metrics cfg w reg) →
  connect_ok w = true ∧ cursor_ok w = true ∧
  use_database_ok w = true ∧ use_schema_ok w = true ∧ all_ok w = true.
Proof.
  intros H%committed_iff.
  apply andb_true_iff in H as [[Hc Hcur]%andb_true_iff H].
  by apply andb_true_iff in H as [[Hdb Hsc]%andb_true_iff Hall].
Qed.

Lemma count_absent (P : event → bool) (ev : event) (E : list event) :
  P ev = false → Forall (fun ev' => P ev' = true) E →
  count_occ event_eq_dec E ev = 0%nat.
Proof.
  intros Hev HE. apply count_occ_not_In. intros Hin.
  rewrite Forall_forall in HE. apply list_elem_of_In, HE in Hin. congruence.
Qed.

Lemma attempt_query_or_log cfg w reg :
  Forall (fun ev => query_or_log ev = true) (events (attempt cfg w reg)).
Proof.
  assert (Hq : ∀ E, Forall (fun ev => query_call ev = true) E →
                    Forall (fun ev => query_or_log ev = true) E).
  { intros E HE. eapply Forall_impl; [exact HE|]. by intros []. }
  unfold attempt.
  destruct (use_database_ok w && use_schema_ok w && all_ok w) eqn:Hok.
  - apply andb_true_iff in Hok as [[Hdb Hsc]%andb_true_iff Hall].
    destruct (try_body_committed cfg w reg Hdb Hsc Hall) as (R & E & Hrun & _ & HE).
    rewrite (try_except_ok _ _ _ _ _ _ Hrun). observe.
    apply Forall_app. split; [by apply Hq|]. by repeat constructor.
  - destruct (try_body_raises cfg w reg Hok) as (e & R & E & He & Hrun & HE).
    rewrite (try_except_caught _ _ _ _ _ _ Hrun He). observe.
    apply Forall_app. split; [by apply Hq|]. by repeat constructor.
Qed.

Lemma execute_in_calls m l :
  Call_execute (Select m) ∈ flat_map calls_of l → m ∈ l.
Proof.
  induction l as [|a l IH]; simpl; [by intros ?%elem_of_nil|].
  rewrite !elem_of_cons. intros [[= ->]|[[=]|Hin]]; [by left|]. right. by apply IH.
Qed.

Lemma try_body_forgets cfg w reg reg' : try_body cfg w reg = try_body cfg w reg'.
Proof.
  rewrite (try_body_loops cfg w reg), (try_body_loops cfg w reg').
  unfold try_loops.
  by rewrite (bind_run _ _ _ _ _ _ (clear_all_run reg)),
             (bind_run _ _ _ _ _ _ (clear_all_run reg')).
Qed.

Lemma try_body_context_exact cfg w reg :
  use_database_ok w && use_schema_ok w = false →
  try_body cfg w reg =
  mkRun (inl DatabaseError) empty_registry
        (Call_execute (Use_database (py_str (SNOWFLAKE_DATABASE cfg))) ::
         if use_database_ok w
         then [Call_execute (Use_schema (py_str (SNOWFLAKE_SCHEMA cfg)))]
         else []).
Proof.
  intros Hctx. rewrite try_body_loops. unfold try_loops.
  rewrite (bind_run _ _ _ _ _ _ (clear_all_run reg)).
  unfold bind. rewrite execute_use_database_run.
  destruct (use_database_ok w); observe; [|done].
  rewrite execute_use_schema_run.
  by destruct (use_schema_ok w).
Qed.

(** ** The calls of a cycle *)

(** X1. A successful cycle makes exactly these calls, in this order: one
    connect, one cursor, the two context statements naming the configured
    database and schema, each of the nine queries executed and fetched once
    in catalog order, the success record, and the two closes (the second
    only if the first returns). *)
Theorem committed_cycle_calls cfg w reg :
  committed (collect_metrics cfg w reg) →
  events (collect_metrics cfg w reg) =
  [Call_connect; Call_cursor;
   Call_execute (Use_database (py_str (SNOWFLAKE_DATABASE cfg)));
   Call_execute (Use_schema (py_str (SNOWFLAKE_SCHEMA cfg)))] ++
  flat_map calls_of catalog ++
  [Log INFO Metrics_collected; Call_cs_close] ++
  (if cs_close_ok w then [Call_conn_close] else []).
Proof.
  intros (Hc & Hcur & Hdb & Hsc & Hall)%committed_conditions.
  rewrite (cycle_of_entries cfg w reg Hc Hcur Hdb Hsc). observe.
  destruct (entries_ok_events w catalog empty_registry Hall) as [-> ->].
  by rewrite <- !app_assoc.
Qed.

Lemma committed_cycle_calls_witness :
  committed (collect_metrics sample_config (healthy tables_1) registry_1) ∧
  events (collect_metrics sample_config (healthy tables_1) registry_1) =
  [Call_connect; Call_cursor;
   Call_execute (Use_database (py_str (SNOWFLAKE_DATABASE sample_config)));
   Call_execute (Use_schema (py_str (SNOWFLAKE_SCHEMA sample_config)))] ++
  flat_map calls_of catalog ++
  [Log INFO Metrics_collected; Call_cs_close] ++
  (if cs_close_ok (healthy tables_1) then [Call_conn_close] else []).
Proof.
  assert (H : committed (collect_metrics sample_config (healthy tables_1) registry_1))
    by (unfold committed; evaluate).
  split; [exact H|].
  exact (committed_cycle_calls sample_config (healthy tables_1) registry_1 H).
Defined.

(** X2. When an entry does not go through (its query raises, or one of
    its rows cannot be set), the rest of the cycle is given up: no query of
    a later entry is executed or fetched, the failure is logged and success
    is not. *)
Theorem failed_entry_ends_queries cfg w reg pre k post :
  catalog = pre ++ k :: post →
  connect_ok w = true → cursor_ok w = true →
  use_database_ok w = true → use_schema_ok w = true →
  forallb (entry_ok w) pre = true → entry_ok w k = false →
  (∀ m, m ∈ post →
     Call_execute (Select m) ∉ events (collect_metrics cfg w reg)) ∧
  (∃ e, Log ERROR (Failed_to_collect e) ∈ events (collect_metrics cfg w reg)) ∧
  ¬ committed (collect_metrics cfg w reg).
Proof.
  intros Hcat Hc Hcur Hdb Hsc Hpre Hk.
  destruct (entries_stop w pre k post empty_registry Hpre Hk)
    as (e & tail & He & Hres & Hev & Htail).
  rewrite <- Hcat in Hres, Hev.
  split_and!.
  - intros m Hm Hin.
    pose proof catalog_nodup as Hnd. rewrite Hcat in Hnd.
    apply NoDup_app in Hnd as (_ & Hdisj & Hkpost).
    apply NoDup_cons in Hkpost as [Hkpost _].
    rewrite (cycle_of_entries cfg w reg Hc Hcur Hdb Hsc) in Hin.
    cbn [events] in Hin. rewrite Hres, Hev in Hin.
    assert (Hcases : Call_execute (Select m) ∈ flat_map calls_of pre ∨
                     Call_execute (Select m) ∈ tail).
    { destruct (cs_close_ok w);
        rewrite !elem_of_app, !elem_of_cons, ?elem_of_nil in Hin;
        intuition (try discriminate; auto). }
    destruct Hcases as [Hin'|Hin'].
    + apply execute_in_calls in Hin'. apply (Hdisj m Hin'). by right.
    + assert (m = k) as ->.
      { destruct Htail as [-> | ->]; unfold calls_of in Hin';
          rewrite !elem_of_cons, ?elem_of_nil in Hin';
          intuition (try discriminate; congruence). }
      done.
  - exists e. rewrite (cycle_of_entries cfg w reg Hc Hcur Hdb Hsc).
    cbn [events]. rewrite Hres.
    rewrite !elem_of_app, !elem_of_cons. auto 10.
  - intros Hcommit%committed_conditions.
    destruct Hcommit as (_ & _ & _ & _ & Hall).
    unfold all_ok in Hall. rewrite Hcat, forallb_app in Hall. simpl in Hall.
    rewrite Hk in Hall. by rewrite andb_false_r in Hall.
Qed.

Lemma failed_entry_ends_queries_witness :
  catalog = [snowflake_warehouse_credits_used] ++
            snowflake_warehouse_load_avg :: drop 2 catalog ∧
  connect_ok (healthy tables_null_value) = true ∧
  cursor_ok (healthy tables_null_value) = true ∧
  use_database_ok (healthy tables_null_value) = true ∧
  use_schema_ok (healthy tables_null_value) = true ∧
  forallb (entry_ok (healthy tables_null_value))
          [snowflake_warehouse_credits_used] = true ∧
  entry_ok (healthy tables_null_value) snowflake_warehouse_load_avg = false ∧
  (∀ m, m ∈ drop 2 catalog →
     Call_execute (Select m)
       ∉ events (collect_metrics sample_config (healthy tables_null_value)
                                 registry_1)) ∧
  (∃ e, Log ERROR (Failed_to_collect e)
          ∈ events (collect_metrics sample_config (healthy tables_null_value)
                                    registry_1)) ∧
  ¬ committed (collect_metrics sample_config (healthy tables_null_value)
                               registry_1).
Proof.
  do 7 (split; [reflexivity|]).
  exact (failed_entry_ends_queries sample_config (healthy tables_null_value)
           registry_1 [snowflake_warehouse_credits_used]
           snowflake_warehouse_load_avg (drop 2 catalog)
           eq_refl eq_refl eq_refl eq_refl eq_refl eq_refl eq_refl).
Defined.

(** X3. Every cycle opens one connection, as the first thing it does, and
    never a second one; it creates one cursor if the connection was
    acquired and none otherwise. *)
Theorem one_session_per_cycle cfg w reg :
  head (events (collect_metrics cfg w reg)) = Some Call_connect ∧
  count_occ event_eq_dec (events (collect_metrics cfg w reg)) Call_connect
    = 1%nat ∧
  count_occ event_eq_dec (events (collect_metrics cfg w reg)) Call_cursor
    = (if connect_ok w then 1%nat else 0%nat).
Proof.
  destruct (connect_ok w) eqn:Hc.
  - destruct (cursor_ok w) eqn:Hcur.
    + destruct (attempt_run cfg w reg) as (R & E & Hrun & _).
      pose proof (attempt_query_or_log cfg w reg) as HE. rewrite Hrun in HE.
      cbn [events] in HE.
      rewrite (cycle_run cfg w reg R E Hc Hcur Hrun). observe.
      rewrite !count_occ_app.
      rewrite (count_absent query_or_log Call_connect E eq_refl HE).
      rewrite (count_absent query_or_log Call_cursor E eq_refl HE).
      by destruct (cs_close_ok w).
    + by rewrite (cycle_without_cursor cfg w reg Hc Hcur).
  - by rewrite (cycle_skipped cfg w reg Hc).
Qed.

(** X4. A cycle that gets its cursor does not depend on what the registry
    held before: two such cycles in the same world leave the same registry
    and make the same calls, whatever they started from. *)
Theorem cycle_forgets cfg w reg reg' :
  connect_ok w = true → cursor_ok w = true →
  collect_metrics cfg w reg = collect_metrics cfg w reg'.
Proof.
  intros Hc Hcur.
  destruct (attempt_run cfg w reg) as (R & E & Hrun & _).
  assert (Hrun' : attempt cfg w reg' = mkRun (inr tt) R E).
  { rewrite <- Hrun. unfold attempt, try_except.
    by rewrite (try_body_forgets cfg w reg' reg). }
  by rewrite (cycle_run cfg w reg R E Hc Hcur Hrun),
             (cycle_run cfg w reg' R E Hc Hcur Hrun').
Qed.

Lemma cycle_forgets_witness :
  connect_ok load_query_down = true ∧ cursor_ok load_query_down = true ∧
  collect_metrics sample_config load_query_down registry_1
  = collect_metrics sample_config load_query_down empty_registry.
Proof.
  do 2 (split; [reflexivity|]).
  exact (cycle_forgets sample_config load_query_down registry_1 empty_registry
           eq_refl eq_refl).
Defined.

(** X5. When [USE DATABASE] or [USE SCHEMA] raises, the cycle has already
    cleared the registry and stops there: all nine gauges are left empty,
    no catalog query is executed, the failure is logged and the session is
    released. *)
Theorem context_failure_empties_registry cfg w reg :
  connect_ok w = true → cursor_ok w = true →
  use_database_ok w && use_schema_ok w = false →
  registry (collect_metrics cfg w reg) = empty_registry ∧
  events (collect_metrics cfg w reg) =
  [Call_connect; Call_cursor;
   Call_execute (Use_database (py_str (SNOWFLAKE_DATABASE cfg)))] ++
  (if use_database_ok w
   then [Call_execute (Use_schema (py_str (SNOWFLAKE_SCHEMA cfg)))] else []) ++
  [Log ERROR (Failed_to_collect DatabaseError); Call_cs_close] ++
  (if cs_close_ok w then [Call_conn_close] else []).
Proof.
  intros Hc Hcur Hctx.
  pose proof (try_except_caught _ (fun e => log ERROR (Failed_to_collect e))
                _ _ _ _ (try_body_context_exact cfg w reg Hctx) eq_refl)
    as Hattempt.
  rewrite (cycle_run cfg w reg _ _ Hc Hcur Hattempt). observe.
  split; [done|]. unfold log, emit. observe.
  by destruct (use_database_ok w), (cs_close_ok w).
Qed.

Lemma context_failure_empties_registry_witness :
  connect_ok context_down = true ∧ cursor_ok context_down = true ∧
  use_database_ok context_down && use_schema_ok context_down = false ∧
  registry (collect_metrics sample_config context_down registry_1)
    = empty_registry ∧
  events (collect_metrics sample_config context_down registry_1) =
  [Call_connect; Call_cursor;
   Call_execute (Use_database (py_str (SNOWFLAKE_DATABASE sample_config)))] ++
  (if use_database_ok context_down
   then [Call_execute (Use_schema (py_str (SNOWFLAKE_SCHEMA sample_config)))]
   else []) ++
  [Log ERROR (Failed_to_collect DatabaseError); Call_cs_close] ++
  (if cs_close_ok context_down then [Call_conn_close] else []).
Proof.
  do 3 (split; [reflexivity|]).
  exact (context_failure_empties_registry sample_config context_down registry_1
           eq_refl eq_refl eq_refl).
Defined.

(** ** Rows and samples *)

Lemma set_sample_null m r reg :
  (length (labelnames m) ≤ length (row_labels r))%nat → row_value r = None →
  set_sample m r reg =
  mkRun (inl TypeError) (put m (gauge_labels (key_of m r) (get m reg)) reg) [].
Proof.
  intros Hlen Hv. unfold set_sample.
  rewrite (bind_run _ _ _ _ _ _ (label_args_ok r 0 _ reg Hlen)).
  rewrite drop_0, Hv. reflexivity.
Qed.

Lemma rows_run_null m good r rest reg :
  forallb (row_ok m) good = true →
  (length (labelnames m) ≤ length (row_labels r))%nat → row_value r = None →
  for_each (good ++ r :: rest) (set_sample m) reg =
  mkRun (inl TypeError)
        (put m (gauge_labels (key_of m r) (write m good (get m reg))) reg) [].
Proof.
  intros Hgood Hlen Hv. rewrite for_each_app.
  rewrite (bind_run _ _ _ _ _ _ (rows_run_ok m good reg Hgood)). observe.
  simpl for_each.
  rewrite (bind_raise _ _ _ _ _ _ (set_sample_null m r _ Hlen Hv)). observe.
  by rewrite get_put_eq, put_put.
Qed.

Lemma collect_null w m good r rest reg :
  result_of w m = Fetched (good ++ r :: rest) →
  forallb (row_ok m) good = true →
  (length (labelnames m) ≤ length (row_labels r))%nat → row_value r = None →
  collect w m reg =
  mkRun (inl TypeError)
        (put m (gauge_labels (key_of m r) (write m good (get m reg))) reg)
        (calls_of m).
Proof.
  intros Hres Hgood Hlen Hv. unfold collect, bind.
  rewrite execute_select_run, fetchall_run, Hres. observe.
  by rewrite (rows_run_null m good r rest reg Hgood Hlen Hv).
Qed.

Lemma gauge_labels_lookup (key key' : list string) (g : gauge) :
  gauge_labels key g !! key' =
  if decide (key = key') then Some (default 0%Q (g !! key)) else g !! key'.
Proof.
  unfold gauge_labels. destruct (g !! key) as [v|] eqn:Hg.
  - destruct (decide (key = key')) as [<-|]; [by rewrite Hg|done].
  - rewrite lookup_insert. by destruct (decide (key = key')).
Qed.

(** X6. A row whose value is NULL makes the cycle fail with the
    [TypeError] of [float(None)]. The rows before it in the same result
    have been set; the row's own label tuple keeps the value an earlier
    row of this result gave it, or holds 0 if there was none; the rows
    after it are not set, and the gauges of the later entries stay
    empty. *)
Theorem null_value_aborts_cycle cfg w reg pre k post good r rest :
  catalog = pre ++ k :: post →
  connect_ok w = true → cursor_ok w = true →
  use_database_ok w = true → use_schema_ok w = true →
  forallb (entry_ok w) pre = true →
  result_of w k = Fetched (good ++ r :: rest) →
  forallb (row_ok k) good = true →
  (length (labelnames k) ≤ length (row_labels r))%nat → row_value r = None →
  Log ERROR (Failed_to_collect TypeError) ∈ events (collect_metrics cfg w reg) ∧
  get k (registry (collect_metrics cfg w reg)) !! key_of k r
    = Some (default 0%Q (last_value k good (key_of k r))) ∧
  (∀ key, key ≠ key_of k r →
     get k (registry (collect_metrics cfg w reg)) !! key = last_value k good key) ∧
  (∀ m, m ∈ post → get m (registry (collect_metrics cfg w reg)) = ∅).
Proof.
  intros Hcat Hc Hcur Hdb Hsc Hpre Hres Hgood Hlen Hv.
  pose proof catalog_nodup as Hnd. rewrite Hcat in Hnd.
  apply NoDup_app in Hnd as (Hndpre & Hdisj & Hkpost).
  apply NoDup_cons in Hkpost as [Hkpost _].
  destruct (entries_ok w pre empty_registry Hndpre Hpre)
    as (R & E & Hrun & _ & Hout & _).
  assert (HY : for_each catalog (collect w) empty_registry =
               mkRun (inl TypeError)
                 (put k (gauge_labels (key_of k r) (write k good ∅)) R)
                 (E ++ calls_of k)).
  { rewrite Hcat, for_each_app.
    rewrite (bind_run _ _ _ _ _ _ Hrun). observe. simpl for_each.
    rewrite (bind_raise _ _ _ _ _ _
               (collect_null w k good r rest R Hres Hgood Hlen Hv)). observe.
    rewrite Hout, get_empty_registry; [done|].
    intros Hkpre. apply (Hdisj k Hkpre). by left. }
  rewrite (cycle_of_entries cfg w reg Hc Hcur Hdb Hsc), HY. observe.
  split_and!.
  - rewrite !elem_of_app, !elem_of_cons. auto 10.
  - rewrite get_put_eq, gauge_labels_lookup, decide_True by done.
    rewrite write_lookup, lookup_empty.
    by destruct (last_value k good (key_of k r)).
  - intros key Hne. rewrite get_put_eq, gauge_labels_lookup, decide_False by done.
    rewrite write_lookup, lookup_empty. by destruct (last_value k good key).
  - intros m Hm. rewrite get_put_ne; [|by intros ->].
    rewrite Hout, get_empty_registry; [done|].
    intros Hmpre. apply (Hdisj m Hmpre). by right.
Qed.

Lemma null_value_aborts_cycle_witness :
  catalog = [snowflake_warehouse_credits_used] ++
            snowflake_warehouse_load_avg :: drop 2 catalog ∧
  connect_ok (healthy tables_null_value) = true ∧
  cursor_ok (healthy tables_null_value) = true ∧
  use_database_ok (healthy tables_null_value) = true ∧
  use_schema_ok (healthy tables_null_value) = true ∧
  forallb (entry_ok (healthy tables_null_value))
          [snowflake_warehouse_credits_used] = true ∧
  result_of (healthy tables_null_value) snowflake_warehouse_load_avg
    = Fetched ([mkrow [Some "WH_A"] (Some (2 # 1)%Q)] ++
               mkrow [Some "WH_B"] None ::
               [mkrow [Some "WH_C"] (Some (4 # 1)%Q)]) ∧
  forallb (row_ok snowflake_warehouse_load_avg)
          [mkrow [Some "WH_A"] (Some (2 # 1)%Q)] = true ∧
  (length (labelnames snowflake_warehouse_load_avg)
   ≤ length (row_labels (mkrow [Some "WH_B"] None)))%nat ∧
  row_value (mkrow [Some "WH_B"] None) = None ∧
  Log ERROR (Failed_to_collect TypeError)
    ∈ events (collect_metrics sample_config (healthy tables_null_value) registry_1) ∧
  get snowflake_warehouse_load_avg
      (registry (collect_metrics sample_config (healthy tables_null_value)
                                 registry_1))
      !! key_of snowflake_warehouse_load_avg (mkrow [Some "WH_B"] None)
    = Some (default 0%Q
              (last_value snowflake_warehouse_load_avg
                 [mkrow [Some "WH_A"] (Some (2 # 1)%Q)]
                 (key_of snowflake_warehouse_load_avg (mkrow [Some "WH_B"] None)))) ∧
  (∀ key, key ≠ key_of snowflake_warehouse_load_avg (mkrow [Some "WH_B"] None) →
     get snowflake_warehouse_load_avg
         (registry (collect_metrics sample_config (healthy tables_null_value)
                                    registry_1)) !! key
     = last_value snowflake_warehouse_load_avg
         [mkrow [Some "WH_A"] (Some (2 # 1)%Q)] key) ∧
  (∀ m, m ∈ drop 2 catalog →
     get m (registry (collect_metrics sample_config (healthy tables_null_value)
                                      registry_1)) = ∅).
Proof.
  do 8 (split; [reflexivity|]). split; [simpl; lia|]. split; [reflexivity|].
  exact (null_value_aborts_cycle sample_config (healthy tables_null_value)
           registry_1 [snowflake_warehouse_credits_used]
           snowflake_warehouse_load_avg (drop 2 catalog)
           [mkrow [Some "WH_A"] (Some (2 # 1)%Q)] (mkrow [Some "WH_B"] None)
           [mkrow [Some "WH_C"] (Some (4 # 1)%Q)]
           eq_refl eq_refl eq_refl eq_refl eq_refl eq_refl eq_refl eq_refl
           (le_n 1) eq_refl).
Defined.

Example null_value_leaves_zero :
  warehouse_load
    (registry (collect_metrics sample_config (healthy tables_null_value) registry_1))
  = {[ ["WH_A"] := (2 # 1)%Q; ["WH_B"] := 0%Q ]}.
Proof. evaluate. Qed.

(** X7. After a successful cycle every sample in the registry comes from
    a row of this cycle: a label tuple that has a value is the tuple of one
    of the rows the metric's query returned, and the value is that row's. *)
Theorem every_sample_from_a_row cfg w reg m key v :
  committed (collect_metrics cfg w reg) →
  get m (registry (collect_metrics cfg w reg)) !! key = Some v →
  ∃ r, r ∈ rows_of w m ∧ key_of m r = key ∧ row_value r = Some v.
Proof.
  intros Hcommit. destruct (committed_registry cfg w reg Hcommit m) as [_ ->].
  rewrite write_lookup, lookup_empty.
  destruct (last_value m (rows_of w m) key) as [v'|] eqn:Hlast; [|done].
  intros [= ->]. by apply (last_value_from_row m).
Qed.

Lemma every_sample_from_a_row_witness :
  committed (collect_metrics sample_config (healthy tables_1) empty_registry) ∧
  get snowflake_login_success_count
      (registry (collect_metrics sample_config (healthy tables_1) empty_registry))
      !! ["bob"] = Some (1 # 1)%Q ∧
  ∃ r, r ∈ rows_of (healthy tables_1) snowflake_login_success_count ∧
       key_of snowflake_login_success_count r = ["bob"] ∧
       row_value r = Some (1 # 1)%Q.
Proof.
  assert (H : committed (collect_metrics sample_config (healthy tables_1)
                                         empty_registry))
    by (unfold committed; evaluate).
  assert (H' : get snowflake_login_success_count
                 (registry (collect_metrics sample_config (healthy tables_1)
                                            empty_registry))
                 !! ["bob"] = Some (1 # 1)%Q) by evaluate.
  split; [exact H|]. split; [exact H'|].
  exact (every_sample_from_a_row sample_config (healthy tables_1) empty_registry
           snowflake_login_success_count ["bob"] (1 # 1)%Q H H').
Defined.

(** X8. After a successful cycle, a metric whose rows have pairwise
    distinct label tuples (what GROUP BY gives) exports one sample per
    row: each row's tuple holds that row's value, and the gauge has as many
    samples as the query returned rows. *)
Theorem distinct_rows_all_exported cfg w reg m :
  committed (collect_metrics cfg w reg) →
  NoDup (map (key_of m) (rows_of w m)) →
  (∀ r, r ∈ rows_of w m →
     get m (registry (collect_metrics cfg w reg)) !! key_of m r = row_value r) ∧
  size (get m (registry (collect_metrics cfg w reg))) = length (rows_of w m).
Proof.
  intros Hcommit Hnd.
  destruct (committed_registry cfg w reg Hcommit m) as [Hok ->].
  assert (Hrows : forallb (row_ok m) (rows_of w m) = true).
  { unfold entry_ok in Hok. unfold rows_of. by destruct (result_of w m). }
  split.
  - intros r Hr. rewrite write_lookup, lookup_empty.
    rewrite (last_value_distinct m _ r Hnd Hr). by destruct (row_value r).
  - rewrite (write_size m _ ∅ Hnd Hrows); [by rewrite map_size_empty|].
    intros r _. apply lookup_empty.
Qed.

Lemma distinct_rows_all_exported_witness :
  committed (collect_metrics sample_config (healthy tables_1) registry_1) ∧
  NoDup (map (key_of snowflake_login_success_count)
             (rows_of (healthy tables_1) snowflake_login_success_count)) ∧
  (∀ r, r ∈ rows_of (healthy tables_1) snowflake_login_success_count →
     get snowflake_login_success_count
         (registry (collect_metrics sample_config (healthy tables_1) registry_1))
         !! key_of snowflake_login_success_count r = row_value r) ∧
  size (get snowflake_login_success_count
          (registry (collect_metrics sample_config (healthy tables_1) registry_1)))
  = length (rows_of (healthy tables_1) snowflake_login_success_count).
Proof.
  assert (H : committed (collect_metrics sample_config (healthy tables_1) registry_1))
    by (unfold committed; evaluate).
  assert (Hnd : NoDup (map (key_of snowflake_login_success_count)
                           (rows_of (healthy tables_1)
                                    snowflake_login_success_count)))
    by evaluate.
  split; [exact H|]. split; [exact Hnd|].
  exact (distinct_rows_all_exported sample_config (healthy tables_1) registry_1
           snowflake_login_success_count H Hnd).
Defined.

(** ** Startup and the process *)

Lemma truthy_false (o : option string) :
  truthy o = false ↔ o = None ∨ o = Some EmptyString.
Proof.
  destruct o as [s|]; simpl; [|by intuition].
  rewrite negb_false_iff, String.eqb_eq. split; [intros ->; by right|].
  by intros [|[= ->]].
Qed.

Lemma truthy_true (o : option string) :
  truthy o = true ↔ ∃ s, o = Some s ∧ s ≠ EmptyString.
Proof.
  destruct o as [s|]; simpl.
  - rewrite negb_true_iff, String.eqb_neq. split; [by eauto|].
    by intros (s' & [= <-] & Hne).
  - split; [done|]. by intros (s & [=] & _).
Qed.

Lemma filter_sublist {A} (P : A → bool) (l : list A) :
  sublist (List.filter P l) l.
Proof.
  induction l as [|a l IH]; simpl; [constructor|].
  destruct (P a); by constructor.
Qed.

(** X9. The validation reports exactly the required names whose value is
    unset or the empty string, no other name and no value, in the order in
    which the names are declared. *)
Theorem missing_exactly env port :
  (∀ name, name ∈ missing (config_of env port) ↔
           name ∈ required_names ∧
           (getenv env name = None ∨ getenv env name = Some EmptyString)) ∧
  sublist (missing (config_of env port)) required_names.
Proof.
  rewrite missing_config_of. split; [|apply filter_sublist].
  intros name. rewrite <- truthy_false, <- negb_true_iff.
  rewrite !list_elem_of_In. apply filter_In.
Qed.

(** X10. If the module body completes, every required value is a string
    that is not empty, the port is what [int] made of the port variable (or
    of ["8000"]), and the configuration holds the environment's values;
    nothing has been logged and the registry is untouched. *)
Theorem startup_postcondition py_int env reg cfg :
  result (startup py_int env reg) = inr cfg →
  (∀ name value, (name, value) ∈ required_env cfg →
                 ∃ s, value = Some s ∧ s ≠ EmptyString) ∧
  py_int (getenv_default env "EXPORTER_PORT" "8000") = Some (EXPORTER_PORT cfg) ∧
  startup py_int env reg = mkRun (inr (config_of env (EXPORTER_PORT cfg))) reg [].
Proof.
  rewrite startup_run.
  destruct (py_int (getenv_default env "EXPORTER_PORT" "8000")) as [port|] eqn:Hp;
    [|done].
  destruct (missing (config_of env port)) as [|n ns] eqn:Hm; [|done].
  observe. intros [= <-]. split_and!; [|done|done].
  intros name value Hin. apply truthy_true.
  unfold missing in Hm. apply map_eq_nil in Hm.
  destruct (truthy value) eqn:Hv; [done|].
  assert (Hf : In (name, value)
                  (List.filter (fun kv => negb (truthy (snd kv)))
                               (required_env (config_of env port)))).
  { apply filter_In. split; [by apply list_elem_of_In|]. simpl. by rewrite Hv. }
  rewrite Hm in Hf. destruct Hf.
Qed.

Lemma startup_postcondition_witness :
  result (startup ascii_int sample_environ empty_registry) = inr sample_config ∧
  (∀ name value, (name, value) ∈ required_env sample_config →
                 ∃ s, value = Some s ∧ s ≠ EmptyString) ∧
  ascii_int (getenv_default sample_environ "EXPORTER_PORT" "8000")
    = Some (EXPORTER_PORT sample_config) ∧
  startup ascii_int sample_environ empty_registry
  = mkRun (inr (config_of sample_environ (EXPORTER_PORT sample_config)))
          empty_registry [].
Proof.
  assert (H : result (startup ascii_int sample_environ empty_registry) = inr sample_config)
    by evaluate.
  split; [exact H|].
  exact (startup_postcondition ascii_int sample_environ empty_registry sample_config H).
Defined.

Lemma startup_passes py_int env reg port :
  py_int (getenv_default env "EXPORTER_PORT" "8000") = Some port →
  complete env = true →
  startup py_int env reg = mkRun (inr (config_of env port)) reg [].
Proof.
  intros Hp Hc. rewrite startup_run, Hp.
  by rewrite (proj2 (missing_nil env port) Hc).
Qed.

(** X11. If the configuration is accepted but the HTTP server cannot be
    started, the process ends with that error after announcing the port:
    no connection to the warehouse is attempted and the registry is
    untouched. *)
Theorem server_failure_stops_process py_int env pw n reg port :
  py_int (getenv_default env "EXPORTER_PORT" "8000") = Some port →
  complete env = true → http_server_ok pw = false →
  main py_int env pw n reg =
  mkRun (inl OSError) reg
        [Log INFO (Exporter_running port); Call_start_http_server port].
Proof.
  intros Hp Hc Hhttp. unfold main.
  rewrite (bind_run _ _ _ _ _ _ (startup_passes py_int env reg port Hp Hc)). observe.
  unfold serve.
  assert (Hlog : log INFO (Exporter_running (EXPORTER_PORT (config_of env port))) reg
                 = mkRun (inr tt) reg [Log INFO (Exporter_running port)]) by done.
  rewrite (bind_run _ _ _ _ _ _ Hlog). observe.
  assert (Hcall : call_or OSError
                    (Call_start_http_server (EXPORTER_PORT (config_of env port)))
                    (http_server_ok pw) reg
                  = mkRun (inl OSError) reg [Call_start_http_server port])
    by (by rewrite Hhttp).
  by rewrite (bind_raise _ _ _ _ _ _ Hcall).
Qed.

Lemma server_failure_stops_process_witness :
  ascii_int (getenv_default sample_environ "EXPORTER_PORT" "8000") = Some 8000 ∧
  complete sample_environ = true ∧ http_server_ok http_down = false ∧
  main ascii_int sample_environ http_down 4 empty_registry =
  mkRun (inl OSError) empty_registry
        [Log INFO (Exporter_running 8000); Call_start_http_server 8000].
Proof.
  do 3 (split; [reflexivity|]).
  exact (server_failure_stops_process ascii_int sample_environ http_down 4 empty_registry
           8000 eq_refl eq_refl eq_refl).
Defined.

(** X12. The whole process, with an accepted configuration and a server
    that starts: it announces the port, starts the server once on that
    port, and then, as long as no exception leaves a cycle, runs cycle
    after cycle with the configuration read from the environment, each
    followed by its sleep. *)
Theorem main_runs py_int env pw n reg port :
  py_int (getenv_default env "EXPORTER_PORT" "8000") = Some port →
  complete env = true → http_server_ok pw = true →
  (∀ i, (i < n)%nat → returns (cycle_world pw i) = true) →
  main py_int env pw n reg =
  mkRun (inr Still_running)
        (registry_at (config_of env port) (cycle_world pw) reg n)
        ([Log INFO (Exporter_running port); Call_start_http_server port] ++
         cycle_events (config_of env port) (cycle_world pw) reg 0 n).
Proof.
  intros Hp Hc Hhttp Hret. unfold main.
  rewrite (bind_run _ _ _ _ _ _ (startup_passes py_int env reg port Hp Hc)). observe.
  unfold serve.
  assert (Hlog : log INFO (Exporter_running (EXPORTER_PORT (config_of env port))) reg
                 = mkRun (inr tt) reg [Log INFO (Exporter_running port)]) by done.
  rewrite (bind_run _ _ _ _ _ _ Hlog). observe.
  assert (Hcall : call_or OSError
                    (Call_start_http_server (EXPORTER_PORT (config_of env port)))
                    (http_server_ok pw) reg
                  = mkRun (inr tt) reg [Call_start_http_server port])
    by (by rewrite Hhttp).
  rewrite (bind_run _ _ _ _ _ _ Hcall). observe.
  pose proof (scheduler_from (config_of env port) (cycle_world pw) reg 0 n) as Hs.
  simpl in Hs. rewrite Hs; [done|]. intros j Hj. apply Hret. lia.
Qed.

Lemma main_runs_witness :
  ascii_int (getenv_default env_port_9105 "EXPORTER_PORT" "8000") = Some 9105 ∧
  complete env_port_9105 = true ∧
  http_server_ok (steady load_query_down) = true ∧
  (∀ i, (i < 2)%nat → returns (cycle_world (steady load_query_down) i) = true) ∧
  main ascii_int env_port_9105 (steady load_query_down) 2 empty_registry =
  mkRun (inr Still_running)
        (registry_at (config_of env_port_9105 9105)
                     (cycle_world (steady load_query_down)) empty_registry 2)
        ([Log INFO (Exporter_running 9105); Call_start_http_server 9105] ++
         cycle_events (config_of env_port_9105 9105)
                      (cycle_world (steady load_query_down)) empty_registry 0 2).
Proof.
  do 3 (split; [reflexivity|]).
  assert (H : ∀ i, (i < 2)%nat →
                   returns (cycle_world (steady load_query_down) i) = true)
    by (intros i _; reflexivity).
  split; [exact H|].
  exact (main_runs ascii_int env_port_9105 (steady load_query_down) 2 empty_registry 9105
           eq_refl eq_refl eq_refl H).
Defined.

(** ** More on the scheduler *)

Lemma scheduler_split cfg cycles reg s a b :
  (∀ j, (s ≤ j < s + a)%nat → returns (cycles j) = true) →
  scheduler cfg cycles s (a + b) (registry_at cfg cycles reg s) =
  mkRun (result (scheduler cfg cycles (s + a) b
                           (registry_at cfg cycles reg (s + a))))
        (registry (scheduler cfg cycles (s + a) b
                             (registry_at cfg cycles reg (s + a))))
        (cycle_events cfg cycles reg s a ++
         events (scheduler cfg cycles (s + a) b
                           (registry_at cfg cycles reg (s + a)))).
Proof.
  revert s. induction a as [|a IH]; intros s Hret.
  - rewrite Nat.add_0_r. simpl. by rewrite run_eta.
  - simpl scheduler.
    assert (Hcycle : collect_metrics cfg (cycles s) (registry_at cfg cycles reg s) =
                     mkRun (inr tt) (registry_at cfg cycles reg (S s))
                       (events (collect_metrics cfg (cycles s)
                                  (registry_at cfg cycles reg s)))).
    { rewrite <- (run_eta (collect_metrics _ _ _)) at 1.
      rewrite cycle_result, (Hret s ltac:(lia)). done. }
    rewrite (bind_run _ _ _ _ _ _ Hcycle).
    assert (Hsleep : emit (Call_sleep 60) (registry_at cfg cycles reg (S s)) =
                     mkRun (inr tt) (registry_at cfg cycles reg (S s))
                           [Call_sleep 60]) by done.
    rewrite (bind_run _ _ _ _ _ _ Hsleep).
    rewrite (IH (S s)); [|intros j Hj; apply Hret; lia]. observe.
    rewrite Nat.add_succ_r. simpl plus.
    unfold cycle_events. simpl seq. simpl flat_map.
    by rewrite <- !app_assoc.
Qed.

(** X13. The first cycle out of which an exception comes ends the loop:
    the cycles before it have run, each followed by its sleep; that cycle
    has run up to the exception; no sleep follows it and no later cycle
    starts, however long the loop is observed. *)
Theorem escaping_cycle_ends_loop cfg cycles reg i n :
  (∀ j, (j < i)%nat → returns (cycles j) = true) →
  returns (cycles i) = false → (i < n)%nat →
  scheduler cfg cycles 0 n reg =
  mkRun (inl DatabaseError) (registry_at cfg cycles reg (S i))
        (cycle_events cfg cycles reg 0 i ++
         events (collect_metrics cfg (cycles i) (registry_at cfg cycles reg i))).
Proof.
  intros Hbefore Hi Hlt.
  replace n with (i + S (n - S i))%nat by lia.
  pose proof (scheduler_split cfg cycles reg 0 i (S (n - S i))) as Hs.
  simpl registry_at in Hs. rewrite Hs; [|intros j Hj; apply Hbefore; lia].
  simpl plus. simpl scheduler.
  assert (Hcycle : collect_metrics cfg (cycles i) (registry_at cfg cycles reg i) =
                   mkRun (inl DatabaseError) (registry_at cfg cycles reg (S i))
                     (events (collect_metrics cfg (cycles i)
                                (registry_at cfg cycles reg i)))).
  { rewrite <- (run_eta (collect_metrics _ _ _)) at 1.
    rewrite cycle_result, Hi. done. }
  by rewrite (bind_raise _ _ _ _ _ _ Hcycle).
Qed.

Lemma escaping_cycle_ends_loop_witness :
  (∀ j, (j < 1)%nat → returns (second_close_raises j) = true) ∧
  returns (second_close_raises 1) = false ∧ (1 < 5)%nat ∧
  scheduler sample_config second_close_raises 0 5 empty_registry =
  mkRun (inl DatabaseError)
        (registry_at sample_config second_close_raises empty_registry 2)
        (cycle_events sample_config second_close_raises empty_registry 0 1 ++
         events (collect_metrics sample_config (second_close_raises 1)
                   (registry_at sample_config second_close_raises
                                empty_registry 1))).
Proof.
  assert (H : ∀ j, (j < 1)%nat → returns (second_close_raises j) = true).
  { intros [|j] Hj; [reflexivity|lia]. }
  split; [exact H|]. split; [reflexivity|]. split; [lia|].
  exact (escaping_cycle_ends_loop sample_config second_close_raises
           empty_registry 1 5 H eq_refl ltac:(lia)).
Defined.

Lemma outage_from cfg cycles reg s n :
  (∀ j, (s ≤ j < s + n)%nat → connect_ok (cycles j) = false) →
  scheduler cfg cycles s n reg =
  mkRun (inr Still_running) reg (concat (replicate n skipped_round)).
Proof.
  revert s. induction n as [|n IH]; intros s Hdown; [done|].
  simpl scheduler.
  rewrite (bind_run _ _ _ _ _ _ (cycle_skipped cfg (cycles s) reg
                                   (Hdown s ltac:(lia)))).
  assert (Hsleep : emit (Call_sleep 60) reg = mkRun (inr tt) reg [Call_sleep 60])
    by done.
  rewrite (bind_run _ _ _ _ _ _ Hsleep).
  rewrite (IH (S s)); [done|]. intros j Hj. apply Hdown. lia.
Qed.

(** X14. While the warehouse cannot be reached the exporter keeps what it
    has: however many cycles are skipped in a row, the loop goes on, the
    registry stays exactly as it was, and each round is one failed
    connect, its log record and the sleep. *)
Theorem outage_keeps_registry cfg cycles reg n :
  (∀ i, (i < n)%nat → connect_ok (cycles i) = false) →
  scheduler cfg cycles 0 n reg =
  mkRun (inr Still_running) reg (concat (replicate n skipped_round)).
Proof.
  intros H. apply outage_from. intros j Hj. apply H. lia.
Qed.

Lemma outage_keeps_registry_witness :
  (∀ i, (i < 3)%nat → connect_ok (outage i) = false) ∧
  scheduler sample_config outage 0 3 registry_1 =
  mkRun (inr Still_running) registry_1 (concat (replicate 3 skipped_round)).
Proof.
  assert (H : ∀ i, (i < 3)%nat → connect_ok (outage i) = false)
    by (intros i _; reflexivity).
  split; [exact H|].
  exact (outage_keeps_registry sample_config outage registry_1 3 H).
Defined.
